(** * HLA typing result aggregation: extractors, aggregation and table views

    A shallow embedding of [generate_html_table.py] and [merge_results.py].

    Conventions of the embedding.
    - Text is a [string] of 8-bit characters read as the code points
      U+0000..U+00FF; a file's content is the text Python hands to the
      program, before universal-newline translation (see [read_text]).
    - A Python [dict] whose iteration order is never observed by the program
      (the keys only ever go through [set] and [sorted]) is a [gmap]; a list
      is a [list].
    - [float] values are kept as exact rationals in lowest terms; the
      rounding to binary64 is not modelled.
    - The size limits of the runtime are its defaults: [int] refuses a
      string of more than 4300 digits, the csv reader a field of more than
      131072 characters.
    - Of the generated documents the model keeps the table: its columns and
      its rows of cells; the markup around them is constant text.
    - A raised exception is the [Raise] branch of [result]; [print] and file
      writes are recorded in an event log. *)

From Stdlib Require Import String Ascii List ZArith QArith Permutation Sorted Lia.
From stdpp Require Import gmap strings list fin_maps pretty.

Local Open Scope string_scope.
Local Open Scope list_scope.

(** ** Characters and [str] methods *)

Module Text.

Definition code (c : ascii) : nat := nat_of_ascii c.

Definition in_range (lo hi : nat) (c : ascii) : bool :=
  (lo <=? code c)%nat && (code c <=? hi)%nat.

(** [str.isspace] on one character, which is also the class [\s] of [re]
    for [str] patterns. *)
Definition is_space (c : ascii) : bool :=
  in_range 9 13 c || in_range 28 32 c
  || (code c =? 133)%nat || (code c =? 160)%nat.

(** The class [\d] below U+0100. *)
Definition is_digit (c : ascii) : bool := in_range 48 57 c.

Definition is_upper (c : ascii) : bool := in_range 65 90 c.

Definition tab : ascii := ascii_of_nat 9.
Definition newline : ascii := ascii_of_nat 10.
Definition carriage_return : ascii := ascii_of_nat 13.

Fixpoint all_chars (P : ascii -> bool) (s : string) : bool :=
  match s with
  | EmptyString => true
  | String c s' => P c && all_chars P s'
  end.

(** [s.lstrip()], [s.rstrip()], [s.strip()] *)
Fixpoint lstrip (s : string) : string :=
  match s with
  | EmptyString => EmptyString
  | String c s' => if is_space c then lstrip s' else s
  end.

Fixpoint rstrip (s : string) : string :=
  match s with
  | EmptyString => EmptyString
  | String c s' =>
      match rstrip s' with
      | EmptyString => if is_space c then EmptyString else String c EmptyString
      | r => String c r
      end
  end.

Definition strip (s : string) : string := rstrip (lstrip s).

(** [s.split(sep)] for a one-character separator: always at least one
    field. *)
Fixpoint split (sep : ascii) (s : string) : list string :=
  match s with
  | EmptyString => [EmptyString]
  | String c s' =>
      if Ascii.eqb c sep then EmptyString :: split sep s'
      else match split sep s' with
           | f :: fs => String c f :: fs
           | [] => [String c EmptyString]
           end
  end.

(** [s.replace(c, '')] for a one-character [c]. *)
Fixpoint remove_char (x : ascii) (s : string) : string :=
  match s with
  | EmptyString => EmptyString
  | String c s' =>
      if Ascii.eqb c x then remove_char x s' else String c (remove_char x s')
  end.

(** [s.startswith(p)] *)
Definition startswith (p s : string) : bool := String.prefix p s.

(** Universal-newline translation done by [open(path, 'r')]: each of
    "\r\n" and "\r" is read as "\n". *)
Fixpoint read_text (raw : string) : string :=
  match raw with
  | EmptyString => EmptyString
  | String c s' =>
      if Ascii.eqb c carriage_return then
        match s' with
        | String c' _ =>
            if Ascii.eqb c' newline then read_text s'
            else String newline (read_text s')
        | EmptyString => String newline EmptyString
        end
      else String c (read_text s')
  end.

(** Iterating a text file, and [readlines()]: the lines with their
    terminating "\n" kept; an unterminated last line is a line too. *)
Fixpoint lines_from (cur : option string) (s : string) : list string :=
  match s with
  | EmptyString => match cur with Some l => [l] | None => [] end
  | String c s' =>
      let l := default EmptyString cur +:+ String c EmptyString in
      if Ascii.eqb c newline then l :: lines_from None s'
      else lines_from (Some l) s'
  end.

Definition file_lines (text : string) : list string := lines_from None text.

(** [s[k:]] and [s[:k]] *)
Fixpoint drop (k : nat) (s : string) : string :=
  match k, s with
  | S k', String _ s' => drop k' s'
  | _, _ => s
  end.

Fixpoint take (k : nat) (s : string) : string :=
  match k, s with
  | S k', String c s' => String c (take k' s')
  | _, _ => EmptyString
  end.

Fixpoint strip_prefix (p s : string) : option string :=
  match p, s with
  | EmptyString, _ => Some s
  | String a p', String b s' =>
      if Ascii.eqb a b then strip_prefix p' s' else None
  | String _ _, EmptyString => None
  end.

(** Length of the longest prefix of [s] whose characters are all in [cls]. *)
Fixpoint run_length (cls : ascii -> bool) (s : string) : nat :=
  match s with
  | String c s' => if cls c then S (run_length cls s') else 0
  | EmptyString => 0
  end.

(** Lexicographic order by code point: Python's [<=] on [str]. *)
Definition str_le (a b : string) : bool := String.leb a b.

(** A line without its final newline. *)
Fixpoint chomp (line : string) : string :=
  match line with
  | EmptyString => EmptyString
  | String c EmptyString =>
      if Ascii.eqb c newline then EmptyString else line
  | String c line' => String c (chomp line')
  end.

End Text.

(** ** Exceptions *)

Inductive exn := ValueError | CsvError.

Inductive result (A : Type) :=
| Ok (a : A)
| Raise (e : exn).
Arguments Ok {A} a.
Arguments Raise {A} e.

#[global] Instance result_ret : MRet result := fun A a => Ok a.
#[global] Instance result_bind : MBind result := fun A B f m =>
  match m with
  | Ok a => f a
  | Raise e => Raise e
  end.

(** [for x in xs: st = body(st, x)], leaving the loop at the first raise. *)
Fixpoint for_each {A St} (body : St -> A -> result St) (xs : list A) (st : St)
  : result St :=
  match xs with
  | [] => Ok st
  | x :: xs' => st' ← body st x; for_each body xs' st'
  end.

(** ** A backtracking matcher for the report pattern

    The pattern of both scripts is a sequence of literals and capturing
    groups of the shape [(class+)]; [+] is greedy and gives characters back
    one at a time when the rest of the pattern fails. *)

Module Regex.
Import Text.

Inductive atom :=
| Lit (s : string)
| Group (cls : ascii -> bool).

(** Match [p] at the start of [s]: the captured groups and the text left
    after the match. *)
Fixpoint match_here (p : list atom) (s : string)
  : option (list string * string) :=
  match p with
  | [] => Some ([], s)
  | Lit l :: p' =>
      match strip_prefix l s with
      | Some s' => match_here p' s'
      | None => None
      end
  | Group cls :: p' =>
      (fix give_back (k : nat) : option (list string * string) :=
         match k with
         | 0 => None
         | S k' =>
             match match_here p' (drop k s) with
             | Some (caps, rest) => Some (take k s :: caps, rest)
             | None => give_back k'
             end
         end) (run_length cls s)
  end.

(** [re.findall(p, s)]: scan left to right; after a match, resume at its
    end. [skip] counts the characters of the last match still to be
    passed over. A match of this pattern is never empty. *)
Fixpoint findall_from (p : list atom) (skip : nat) (s : string)
  : list (list string) :=
  match s with
  | EmptyString => []
  | String _ s' =>
      match skip with
      | S skip' => findall_from p skip' s'
      | 0 =>
          match match_here p s with
          | Some (caps, rest) =>
              caps :: findall_from p (String.length s - String.length rest - 1) s'
          | None => findall_from p 0 s'
          end
      end
  end.

Definition findall (p : list atom) (s : string) : list (list string) :=
  findall_from p 0 s.

(** The number of capturing groups of a pattern. *)
Fixpoint groups (p : list atom) : nat :=
  match p with
  | [] => 0
  | Lit _ :: p' => groups p'
  | Group _ :: p' => S (groups p')
  end.

End Regex.

(** ** Numeric conversions *)

Module Num.
Import Text.

Definition digit_val (c : ascii) : N := N.of_nat (code c - 48).

Fixpoint digits_val (acc : N) (s : string) : N :=
  match s with
  | EmptyString => acc
  | String c s' => digits_val (10 * acc + digit_val c) s'
  end.

(** The default of [sys.get_int_max_str_digits()]. *)
Definition int_max_str_digits : N := 4300.

(** [int(s)] on a token matched by [\d+]: a string of more digits than the
    limit, leading zeros counted, raises [ValueError]. *)
Definition int (s : string) : result N :=
  if (int_max_str_digits <? N.of_nat (String.length s))%N then Raise ValueError
  else Ok (digits_val 0 s).

Definition is_dot (c : ascii) : bool := Ascii.eqb c ".".

(** [float(s)] on a token matched by [[\d.]+]: digits with at most one
    point and at least one digit; anything else raises [ValueError]. There
    is no limit on the number of digits. *)
Definition float (s : string) : result Q :=
  let ip := take (run_length is_digit s) s in
  let after := drop (run_length is_digit s) s in
  match after with
  | EmptyString =>
      if (String.length ip =? 0)%nat then Raise ValueError
      else Ok (Qred (Z.of_N (digits_val 0 ip) # 1))
  | String c fp =>
      if is_dot c && all_chars is_digit fp
         && negb ((String.length ip + String.length fp =? 0)%nat)
      then Ok (Qred (Z.of_N (digits_val 0 (ip +:+ fp))
                      # Z.to_pos (10 ^ Z.of_nat (String.length fp))))
      else Raise ValueError
  end.

End Num.

(** ** The csv reader of [csv.DictReader(f, delimiter='\t')]

    The reader's character automaton for the default dialect with a tab
    delimiter: the double quote as quote character, doubled inside quoted
    fields, no escape character, not strict. A field holds at most
    [field_limit] characters. *)

Module Csv.
Import Text.

Inductive pstate :=
| START_RECORD
| START_FIELD
| IN_FIELD
| IN_QUOTED_FIELD
| QUOTE_IN_QUOTED_FIELD
| EAT_CRNL.

Record parser := {
  state : pstate;
  field : string;
  fields : list string
}.

Definition quotechar : ascii := ascii_of_nat 34.

Definition parse_reset : parser :=
  {| state := START_RECORD; field := EmptyString; fields := [] |}.

(** The default of [csv.field_size_limit()]. *)
Definition field_limit : N := 131072.

(** Adding a character to a field that is full raises [csv.Error]. *)
Definition parse_add_char (c : ascii) (st : pstate) (p : parser)
  : result parser :=
  if (field_limit <=? N.of_nat (String.length (field p)))%N then Raise CsvError
  else Ok {| state := st; field := field p +:+ String c EmptyString;
             fields := fields p |}.

Definition parse_save_field (st : pstate) (p : parser) : parser :=
  {| state := st; field := EmptyString; fields := fields p ++ [field p] |}.

Definition set_state (st : pstate) (p : parser) : parser :=
  {| state := st; field := field p; fields := fields p |}.

Definition is_nl (c : ascii) : bool :=
  Ascii.eqb c newline || Ascii.eqb c carriage_return.

(** One step of the automaton; [None] is the end-of-line signal the reader
    sends after the last character of each line. *)
Definition start_field (p : parser) (c : option ascii) : result parser :=
  match c with
  | None => Ok (parse_save_field START_RECORD p)
  | Some ch =>
      if is_nl ch then Ok (parse_save_field EAT_CRNL p)
      else if Ascii.eqb ch quotechar then Ok (set_state IN_QUOTED_FIELD p)
      else if Ascii.eqb ch tab then Ok (parse_save_field START_FIELD p)
      else parse_add_char ch IN_FIELD p
  end.

Definition parse_process_char (p : parser) (c : option ascii) : result parser :=
  match state p with
  | START_RECORD =>
      match c with
      | None => Ok p
      | Some ch =>
          if is_nl ch then Ok (set_state EAT_CRNL p)
          else start_field p c
      end
  | START_FIELD => start_field p c
  | IN_FIELD =>
      match c with
      | None => Ok (parse_save_field START_RECORD p)
      | Some ch =>
          if is_nl ch then Ok (parse_save_field EAT_CRNL p)
          else if Ascii.eqb ch tab then Ok (parse_save_field START_FIELD p)
          else parse_add_char ch IN_FIELD p
      end
  | IN_QUOTED_FIELD =>
      match c with
      | None => Ok p
      | Some ch =>
          if Ascii.eqb ch quotechar then Ok (set_state QUOTE_IN_QUOTED_FIELD p)
          else parse_add_char ch IN_QUOTED_FIELD p
      end
  | QUOTE_IN_QUOTED_FIELD =>
      match c with
      | None => Ok (parse_save_field START_RECORD p)
      | Some ch =>
          if Ascii.eqb ch quotechar then parse_add_char ch IN_QUOTED_FIELD p
          else if Ascii.eqb ch tab then Ok (parse_save_field START_FIELD p)
          else if is_nl ch then Ok (parse_save_field EAT_CRNL p)
          else parse_add_char ch IN_FIELD p
      end
  | EAT_CRNL =>
      match c with
      | None => Ok (set_state START_RECORD p)
      | Some ch => if is_nl ch then Ok p else Raise CsvError
      end
  end.

(** The characters of one line, then the end-of-line signal. *)
Fixpoint process_line (p : parser) (line : string) : result parser :=
  match line with
  | EmptyString => parse_process_char p None
  | String ch line' =>
      p' ← parse_process_char p (Some ch); process_line p' line'
  end.

Definition at_start (p : parser) : bool :=
  match state p with START_RECORD => true | _ => false end.

Definition in_quoted (p : parser) : bool :=
  match state p with IN_QUOTED_FIELD => true | _ => false end.

(** All records of the input. A record is complete when a line leaves the
    automaton in [START_RECORD]; input that ends inside a record closes
    it. *)
Fixpoint read_records (p : parser) (lines : list string)
  : result (list (list string)) :=
  match lines with
  | [] =>
      if negb (String.length (field p) =? 0)%nat || in_quoted p
      then Ok [fields (parse_save_field START_RECORD p)]
      else Ok []
  | l :: ls =>
      p' ← process_line p l;
      if at_start p' then
        recs ← read_records parse_reset ls; Ok (fields p' :: recs)
      else read_records p' ls
  end.

Definition reader (lines : list string) : result (list (list string)) :=
  read_records parse_reset lines.

(** A row of [DictReader]: [None] is the [restval] of a column the record
    is too short for. Values beyond the header go under the key [None],
    which is no column name and is left out. *)
Definition row_dict (fieldnames row : list string) : gmap string (option string) :=
  let d := fold_left (fun d kv => <[kv.1 := Some kv.2]> d)
                     (zip fieldnames row) ∅ in
  fold_left (fun d k => <[k := None]> d)
            (List.skipn (List.length row) fieldnames) d.

Definition is_blank_record (r : list string) : bool :=
  match r with [] => true | _ => false end.

(** The first record is the header, even when it is blank; blank records
    after it are passed over. *)
Definition DictReader (lines : list string)
  : result (list (gmap string (option string))) :=
  recs ← reader lines;
  match recs with
  | [] => Ok []
  | fieldnames :: rows =>
      Ok (map (row_dict fieldnames)
              (List.filter (fun r => negb (is_blank_record r)) rows))
  end.

End Csv.

(** ** Data model *)

(** One ranked call of a report: the dict with keys 'rank', 'allele' and
    'abundance'. *)
Record allele_info := {
  rank : N;
  allele : string;
  abundance : Q
}.

(** [results[gene].append(x)]; the key is present at every use. *)
Definition append_at {A} (gene : string) (x : A) (results : gmap string (list A))
  : gmap string (list A) :=
  alter (fun l => l ++ [x]) gene results.

(** [if gene not in results: results[gene] = []] *)
Definition ensure_key {A} (gene : string) (results : gmap string (list A))
  : gmap string (list A) :=
  match results !! gene with
  | Some _ => results
  | None => <[gene := []]> results
  end.

(** ** Extractors *)

Module Extract.
Import Text Regex Num.

(** [(\d+) ranked ([A-Z0-9]+)\*([^\s]+) \(abundance: ([\d.]+)%\)] *)
Definition pattern : list atom :=
  [ Group is_digit; Lit " ranked ";
    Group (fun c => is_upper c || is_digit c); Lit "*";
    Group (fun c => negb (is_space c)); Lit " (abundance: ";
    Group (fun c => is_digit c || is_dot c); Lit "%)" ].

(** The 4-tuple of groups [findall] returns for each match. *)
Record ranked_match := {
  m_rank : string;
  m_gene : string;
  m_allele : string;
  m_abundance : string
}.

Definition as_match (caps : list string) : option ranked_match :=
  match caps with
  | [r; g; a; ab] =>
      Some {| m_rank := r; m_gene := g; m_allele := a; m_abundance := ab |}
  | _ => None
  end.

Definition matches (content : string) : list ranked_match :=
  omap as_match (findall pattern content).

(** generate_html_table.py, [parse_report_file]: the loop body. *)
Definition report_step (results : gmap string (list allele_info))
                       (m : ranked_match)
  : result (gmap string (list allele_info)) :=
  let results := ensure_key (m_gene m) results in
  r ← int (m_rank m);
  ab ← float (m_abundance m);
  Ok (append_at (m_gene m)
        {| rank := r; allele := m_allele m; abundance := ab |}
        results).

Definition parse_report_file (raw : string)
  : result (gmap string (list allele_info)) :=
  let content := read_text raw in
  for_each report_step (matches content) ∅.

(** merge_results.py, [parse_hisat_report]: the loop body. *)
Definition hisat_step (results : gmap string (list allele_info))
                      (m : ranked_match)
  : result (gmap string (list allele_info)) :=
  let results := ensure_key (m_gene m) results in
  r ← int (m_rank m);
  if (r <=? 2)%N then
    r ← int (m_rank m);
    ab ← float (m_abundance m);
    Ok (append_at (m_gene m)
          {| rank := r;
             allele := "HLA-" +:+ m_gene m +:+ "*" +:+ m_allele m;
             abundance := ab |}
          results)
  else Ok results.

Definition parse_hisat_report (raw : string)
  : result (gmap string (list allele_info)) :=
  let content := read_text raw in
  for_each hisat_step (matches content) ∅.

(** merge_results.py, [parse_estimation_result] *)
Definition is_call (a : string) : bool :=
  negb (a =? "") && negb (a =? "-") && negb (a =? "Not typed").

Definition estimation_line (results : gmap string (list string))
                           (line : string) : gmap string (list string) :=
  let line := strip line in
  if line =? "" then results
  else
    match split tab line with
    | p0 :: p1 :: p2 :: _ =>
        let gene := strip p0 in
        let allele1 := strip p1 in
        let allele2 := strip p2 in
        let results := <[gene := []]> results in
        let results :=
          if is_call allele1 then append_at gene allele1 results else results in
        let results :=
          if is_call allele2 then append_at gene allele2 results else results in
        results
    | _ => results
    end.

Definition parse_estimation_result (raw : string) : gmap string (list string) :=
  fold_left estimation_line (file_lines (read_text raw)) ∅.

(** merge_results.py, [parse_optitype_result]: [sample_path] is [None]
    when the sample's directory does not exist, else the contents of the
    files [rglob('*_result.tsv')] finds in it, in the order it finds
    them. *)
Definition optitype_cell (row : gmap string (option string)) (col : string)
  : list string :=
  match row !! col with
  | Some (Some v) =>
      if v =? "" then []
      else
        let allele := strip v in
        if allele =? "" then [] else ["HLA-" +:+ allele]
  | _ => []
  end.

Definition optitype_gene (row : gmap string (option string))
                         (results : gmap string (list string)) (gene : string)
  : gmap string (list string) :=
  let alleles :=
    flat_map (fun i => optitype_cell row (gene +:+ i)) ["1"; "2"] in
  match alleles with
  | [] => results
  | _ => <[gene := alleles]> results
  end.

Definition optitype_row (results : gmap string (list string))
                        (row : gmap string (option string))
  : gmap string (list string) :=
  fold_left (optitype_gene row) ["A"; "B"; "C"] results.

Definition parse_optitype_result (sample_path : option (list string))
  : result (gmap string (list string)) :=
  match sample_path with
  | None => Ok ∅
  | Some [] => Ok ∅
  | Some (raw :: _) =>
      rows ← Csv.DictReader (file_lines (read_text raw));
      Ok (fold_left optitype_row rows ∅)
  end.

(** merge_results.py, [parse_hlala_result]: [bestguess_file] is [None]
    when the file does not exist, else its content. *)
Definition hlala_line (results : gmap string (list string)) (line : string)
  : gmap string (list string) :=
  let line := strip line in
  if line =? "" then results
  else
    match split tab line with
    | p0 :: _ :: p2 :: _ =>
        let gene := strip p0 in
        let allele := strip p2 in
        let allele := strip (remove_char "G" allele) in
        let results := ensure_key gene results in
        let allele :=
          if negb (startswith "HLA-" allele) then "HLA-" +:+ allele
          else allele in
        append_at gene allele results
    | _ => results
    end.

Definition parse_hlala_result (bestguess_file : option string)
  : gmap string (list string) :=
  match bestguess_file with
  | None => ∅
  | Some raw =>
      let lines := file_lines (read_text raw) in
      fold_left hlala_line (List.tl lines) ∅
  end.

End Extract.

(** ** [sorted] and [list.sort]

    Both are stable; so is this insertion sort, hence it returns the same
    list for every key and order. *)

Section Sorting.
Context {A K : Type} (key : A -> K) (le : K -> K -> bool).

Fixpoint insort (x : A) (l : list A) : list A :=
  match l with
  | [] => [x]
  | y :: l' =>
      if le (key x) (key y) then x :: l else y :: insort x l'
  end.

Fixpoint sorted_by (l : list A) : list A :=
  match l with
  | [] => []
  | x :: l' => insort x (sorted_by l')
  end.

End Sorting.

(** [sorted(xs)] on strings. *)
Definition sorted_strs (l : list string) : list string :=
  sorted_by id Text.str_le l.

(** ** Files, output and the event log *)

(** An entry of a root directory: its name, whether it is a directory, and
    the contents of the files [glob('*.report')] finds in it, in the order
    it finds them. *)
Record dir_entry := {
  entry_name : string;
  is_dir : bool;
  report_files : list string
}.

(** What the scripts see of the file system. A root directory that does not
    exist lists as [None]. The three comparison tools are looked up by root
    directory and sample name. *)
Record filesystem := {
  iterdir : string -> option (list dir_entry);
  estimation_file : string -> string -> option string;
  optitype_files : string -> string -> option (list string);
  hlala_file : string -> string -> option string
}.

Inductive cell :=
| Ranked (spans : list allele_info)
| Alleles (spans : list string)
| NoData
| Dash.

(** The tbody of a generated table: one row per gene, a cell per column.
    The markup around the cells is constant text. *)
Record document := {
  columns : list string;
  rows : list (string * list cell)
}.

Inductive event :=
| Stdout (line : string)
| Mkdir (path : string)
| FileWritten (path : string) (doc : document).

(** A run: what it printed and wrote, then its return value or the
    exception that ended it. *)
Definition M (A : Type) : Type := (list event * result A)%type.

#[global] Instance M_ret : MRet M := fun A a => ([], Ok a).
#[global] Instance M_bind : MBind M := fun A B f m =>
  match m with
  | (log, Ok a) => let '(log', r) := f a in (log ++ log', r)
  | (log, Raise e) => (log, Raise e)
  end.

Definition emit (e : event) : M unit := ([e], Ok tt).
Definition print (line : string) : M unit := emit (Stdout line).
Definition lift {A} (r : result A) : M A := ([], r).

Fixpoint for_eachM {A St} (body : St -> A -> M St) (xs : list A) (st : St)
  : M St :=
  match xs with
  | [] => mret st
  | x :: xs' => st' ← body st x; for_eachM body xs' st'
  end.

(** The status of the process: a run that returns exits with 0, an uncaught
    exception with 1. *)
Definition exit_status {A} (run : M A) : nat :=
  match run.2 with
  | Ok _ => 0
  | Raise _ => 1
  end.

Definition nl : string := String Text.newline EmptyString.

(** ** generate_html_table.py *)

Module Table.
Import Text Extract.

Abbreviation method_result := (gmap string (list allele_info)).

(** [collect_all_results]: the loop over the sorted entries. *)
Definition collect_step (acc : gmap string method_result * list string)
                        (sample_dir : dir_entry)
  : M (gmap string method_result * list string) :=
  let '(all_data, samples) := acc in
  if negb (is_dir sample_dir) then mret acc
  else
    let sample_name := entry_name sample_dir in
    match report_files sample_dir with
    | [] =>
        _ ← print ("Warning: No report file found in " +:+ sample_name);
        mret acc
    | report_file :: _ =>
        results ← lift (parse_report_file report_file);
        if bool_decide (results = ∅) then mret acc
        else mret (<[sample_name := results]> all_data,
                   samples ++ [sample_name])
    end.

Definition all_genes_of (all_data : gmap string method_result) : gset string :=
  map_fold (fun _ sample_results acc => acc ∪ dom sample_results) ∅ all_data.

(** The triple of [collect_all_results]; [None] stands for the triple of
    [None]s. *)
Definition collect_all_results (fs : filesystem) (output_dir : string)
  : M (option (gmap string method_result * list string * list string)) :=
  match iterdir fs output_dir with
  | None =>
      _ ← print ("Error: Directory " +:+ output_dir +:+ " does not exist");
      mret None
  | Some entries =>
      '(all_data, samples) ←
        for_eachM collect_step (sorted_by entry_name str_le entries) (∅, []);
      let all_genes := all_genes_of all_data in
      mret (Some (all_data, sorted_strs samples,
                  sorted_strs (elements all_genes)))
  end.

(** One cell of [generate_html_table]. The stored list is sorted in
    place, so the cell hands back the store as well. *)
Definition render_cell (gene : string)
                       (acc : gmap string method_result * list cell)
                       (sample : string)
  : gmap string method_result * list cell :=
  let '(all_data, cells) := acc in
  match all_data !! sample with
  | Some sample_results =>
      match sample_results !! gene with
      | Some ranked_alleles =>
          let ranked_alleles := sorted_by rank N.leb ranked_alleles in
          (<[sample := <[gene := ranked_alleles]> sample_results]> all_data,
           cells ++ [Ranked ranked_alleles])
      | None => (all_data, cells ++ [NoData])
      end
  | None => (all_data, cells ++ [NoData])
  end.

Definition render_row (samples : list string)
    (acc : gmap string method_result * list (string * list cell))
    (gene : string)
  : gmap string method_result * list (string * list cell) :=
  let '(all_data, rows) := acc in
  let '(all_data, cells) := fold_left (render_cell gene) samples (all_data, []) in
  (all_data, rows ++ [(gene, cells)]).

(** [generate_html_table]: the store after the call, and the log. *)
Definition generate_html_table (all_data : gmap string method_result)
    (samples genes : list string) (output_file : string)
  : M (gmap string method_result) :=
  let '(all_data, rows) := fold_left (render_row samples) genes (all_data, []) in
  _ ← emit (FileWritten output_file
              {| columns := "Gene" :: samples; rows := rows |});
  _ ← print ("HTML table generated: " +:+ output_file);
  mret all_data.

Definition main (fs : filesystem) : M unit :=
  let output_dir := "hisat.output" in
  let output_file := "hisat_results_table.html" in
  _ ← print ("Parsing results from " +:+ output_dir +:+ "...");
  collected ← collect_all_results fs output_dir;
  match collected with
  | None => print "No data found!"
  | Some (all_data, samples, genes) =>
      if bool_decide (all_data = ∅) then print "No data found!"
      else
        _ ← print ("Found " +:+ pretty (List.length samples) +:+ " samples and "
                   +:+ pretty (List.length genes) +:+ " genes");
        _ ← print "Generating HTML table...";
        _ ← generate_html_table all_data samples genes output_file;
        print (nl +:+ "Done! Open " +:+ output_file
               +:+ " in your browser to view the results.")
  end.

End Table.

(** ** merge_results.py *)

Module Merge.
Import Text Extract.

(** The dict [data] of one sample. *)
Record sample_data := {
  sample : string;
  hisat : gmap string (list allele_info);
  estimation : gmap string (list string);
  optitype : gmap string (list string);
  hlala : gmap string (list string)
}.

(** [Path(hisat_dir) / sample_name]: [None] when it does not exist, else
    what [glob('*.report')] finds there (nothing in a plain file). *)
Definition glob_reports (fs : filesystem) (hisat_dir sample_name : string)
  : option (list string) :=
  entries ← iterdir fs hisat_dir;
  e ← List.find (fun e => entry_name e =? sample_name) entries;
  Some (if is_dir e then report_files e else []).

Definition collect_sample_data (fs : filesystem)
    (sample_name hisat_dir estimation_dir optitype_dir hlala_dir : string)
  : result sample_data :=
  hisat_data ←
    match glob_reports fs hisat_dir sample_name with
    | Some (report_file :: _) => parse_hisat_report report_file
    | _ => Ok ∅
    end;
  let estimation_data :=
    match estimation_file fs estimation_dir sample_name with
    | Some raw => parse_estimation_result raw
    | None => ∅
    end in
  optitype_data ← parse_optitype_result (optitype_files fs optitype_dir sample_name);
  let hlala_data := parse_hlala_result (hlala_file fs hlala_dir sample_name) in
  Ok {| sample := sample_name;
        hisat := hisat_data;
        estimation := estimation_data;
        optitype := optitype_data;
        hlala := hlala_data |}.

(** A cell of a comparison tool: the gene's calls in alphabetical order,
    or the no-data marker when the gene is missing or its list empty. *)
Definition allele_cell (m : gmap string (list string)) (gene : string) : cell :=
  match m !! gene with
  | Some (x :: l) => Alleles (sorted_strs (x :: l))
  | _ => NoData
  end.

Definition hisat_cell (m : gmap string (list allele_info)) (gene : string) : cell :=
  match m !! gene with
  | Some (x :: l) => Ranked (sorted_by allele str_le (x :: l))
  | _ => NoData
  end.

Definition all_genes (data : sample_data) : list string :=
  let all_genes : gset string := ∅ in
  let all_genes := all_genes ∪ dom (hisat data) in
  let all_genes := all_genes ∪ dom (estimation data) in
  let all_genes := all_genes ∪ dom (optitype data) in
  let all_genes := all_genes ∪ dom (hlala data) in
  sorted_strs (elements all_genes).

Definition method_columns : list string :=
  ["OptiType"; "HLA-LA"; "HLA-HD"; "HISAT-genotype"].

Definition sample_row (data : sample_data) (gene : string) : string * list cell :=
  (gene, [ allele_cell (optitype data) gene;
           allele_cell (hlala data) gene;
           allele_cell (estimation data) gene;
           hisat_cell (hisat data) gene ]).

Definition sample_document (data : sample_data) : document :=
  {| columns := "Gene" :: method_columns;
     rows := map (sample_row data) (all_genes data) |}.

Definition generate_sample_html (data : sample_data) (output_file : string)
  : M unit :=
  _ ← emit (FileWritten output_file (sample_document data));
  print ("Generated: " +:+ output_file).

Definition process_sample (fs : filesystem)
    (hisat_dir estimation_dir optitype_dir hlala_dir output_dir : string)
    (_ : unit) (sample_name : string) : M unit :=
  _ ← print (nl +:+ "Processing " +:+ sample_name +:+ "...");
  data ← lift (collect_sample_data fs sample_name hisat_dir estimation_dir
                 optitype_dir hlala_dir);
  let output_file := output_dir +:+ "/" +:+ sample_name +:+ "_comparison.html" in
  generate_sample_html data output_file.

Definition main (fs : filesystem) : M unit :=
  let hisat_dir := "hisat.output" in
  let estimation_dir := "/mnt/data/igor-shared/HLA/estimation" in
  let optitype_dir := "optitype_output" in
  let hlala_dir := "/igor-shared/HLA-LA/working" in
  let output_dir := "comparison_results" in
  _ ← emit (Mkdir output_dir);
  match iterdir fs hisat_dir with
  | None => print ("Error: " +:+ hisat_dir +:+ " not found")
  | Some entries =>
      let samples :=
        map entry_name
            (List.filter is_dir (sorted_by entry_name str_le entries)) in
      _ ← print ("Processing " +:+ pretty (List.length samples) +:+ " samples...");
      _ ← for_eachM (process_sample fs hisat_dir estimation_dir optitype_dir
                       hlala_dir output_dir) samples tt;
      _ ← print (nl +:+ "✓ Done! Generated " +:+ pretty (List.length samples)
                 +:+ " comparison files in '" +:+ output_dir +:+ "/' directory");
      print "  Open any HTML file to view the comparison"
  end.

End Merge.

(** ** The properties under study, and sample inputs *)

Module Stated.
Import Text Num Extract.

Definition tb : string := String tab EmptyString.

(** "The extractor returns every regex match found in the text": each
    match shows up, with its rank, among the calls of its gene. *)
Definition returns_every_match
    (extract : string -> result (gmap string (list allele_info)))
    (raw : string) : Prop :=
  ∀ res, extract raw = Ok res →
    ∀ m, m ∈ matches (read_text raw) →
      ∃ calls c, res !! m_gene m = Some calls ∧ c ∈ calls
                 ∧ int (m_rank m) = Ok (rank c).

(** One call built from one match, as each extractor builds it. *)
Definition report_call (m : ranked_match) (c : allele_info) : Prop :=
  int (m_rank m) = Ok (rank c) ∧ allele c = m_allele m
  ∧ float (m_abundance m) = Ok (abundance c).

Definition hisat_call (m : ranked_match) (c : allele_info) : Prop :=
  int (m_rank m) = Ok (rank c)
  ∧ allele c = "HLA-" +:+ m_gene m +:+ "*" +:+ m_allele m
  ∧ float (m_abundance m) = Ok (abundance c).

(** A match whose rank and abundance tokens both convert. *)
Definition converts (m : ranked_match) : Prop :=
  (∃ r, int (m_rank m) = Ok r) ∧ ∃ q, float (m_abundance m) = Ok q.

Definition of_gene (gene : string) (m : ranked_match) : bool :=
  m_gene m =? gene.

(** The matches whose rank converts to a value that passes [keep]. *)
Definition ranked (keep : N → bool) (m : ranked_match) : bool :=
  match int (m_rank m) with
  | Ok r => keep r
  | Raise _ => false
  end.

(** Rank at most 2: the ranks 0, 1 and 2. *)
Definition top2 (m : ranked_match) : bool := ranked (λ r, (r <=? 2)%N) m.

(** "Maps each gene to its non-empty '1'/'2' column values with the
    normalization prefix applied; a gene with zero non-empty columns is
    absent": the TSV-column rule as worded, with no trimming. *)
Definition stated_optitype_cell (row : gmap string (option string))
                                (col : string) : list string :=
  match row !! col with
  | Some (Some v) => if v =? "" then [] else ["HLA-" +:+ v]
  | _ => []
  end.

Definition stated_optitype_gene (row : gmap string (option string))
                                (gene : string) : option (list string) :=
  match flat_map (fun i => stated_optitype_cell row (gene +:+ i)) ["1"; "2"] with
  | [] => None
  | alleles => Some alleles
  end.

(** The column values of a gene that are left after trimming. *)
Definition trimmed_cell (row : gmap string (option string)) (col : string)
  : list string :=
  match row !! col with
  | Some (Some v) => if strip v =? "" then [] else [strip v]
  | _ => []
  end.

Definition trimmed_values (row : gmap string (option string)) (gene : string)
  : list string :=
  trimmed_cell row (gene +:+ "1") ++ trimmed_cell row (gene +:+ "2").

(** "Strips exactly the single-character suffix marking group-level ('G')
    or null ('N') alleles from the end of the allele token": the
    fixed-column rule as worded. *)
Fixpoint strip_marker (s : string) : string :=
  match s with
  | EmptyString => EmptyString
  | String c EmptyString =>
      if Ascii.eqb c "G" || Ascii.eqb c "N" then EmptyString else s
  | String c s' => String c (strip_marker s')
  end.

(** What a cell of the Gene x Method matrix shows for a stored list: the
    same entries in alphabetical order of allele name, or the no-data
    marker when there is no list or an empty one. *)
Definition names_cell (stored : option (list string)) (c : cell) : Prop :=
  match stored with
  | Some (x :: l) =>
      ∃ spans, c = Alleles spans ∧ Permutation spans (x :: l)
               ∧ Sorted (λ a b, str_le a b = true) spans
  | _ => c = NoData
  end.

Definition calls_cell (stored : option (list allele_info)) (c : cell) : Prop :=
  match stored with
  | Some (x :: l) =>
      ∃ spans, c = Ranked spans ∧ Permutation spans (x :: l)
               ∧ Sorted (λ a b, str_le (allele a) (allele b) = true) spans
  | _ => c = NoData
  end.

(** The stored call list of a sample and gene. *)
Definition stored (all_data : gmap string (gmap string (list allele_info)))
                  (sample gene : string) : option (list allele_info) :=
  all_data !! sample ≫= (fun sample_results => sample_results !! gene).

(** A directory tree holding the given entries under the root
    hisat.output and nothing else. *)
Definition only_hisat (entries : option (list dir_entry)) : filesystem :=
  {| iterdir d := if d =? "hisat.output" then entries else None;
     estimation_file _ _ := None;
     optitype_files _ _ := None;
     hlala_file _ _ := None |}.

(** The two-sample scenario: S1 has one report with one match, S2 is an
    empty directory. *)
Definition two_samples : filesystem :=
  only_hisat (Some
    [ {| entry_name := "S1"; is_dir := true;
         report_files := ["1 ranked A*01:01 (abundance: 55.50%)"] |};
      {| entry_name := "S2"; is_dir := true; report_files := [] |} ]).





(** A best-guess file: the header, a call of locus G with the group
    marker, and a call with the null marker. *)
Definition bestguess_sample : string :=
  "Locus" +:+ tb +:+ "Chromosome" +:+ tb +:+ "Allele" +:+ nl
  +:+ "G" +:+ tb +:+ "1" +:+ tb +:+ "G*01:01:01G" +:+ nl
  +:+ "A" +:+ tb +:+ "1" +:+ tb +:+ "A*01:11N" +:+ nl.

(** A final-result file with one line, and one with the gene repeated. *)
Definition estimation_sample : string :=
  "A" +:+ tb +:+ "A*01:01" +:+ tb +:+ "Not typed".

Definition estimation_repeated : string :=
  "A" +:+ tb +:+ "A*01:01" +:+ tb +:+ "A*02:01" +:+ nl
  +:+ "A" +:+ tb +:+ "A*03:01" +:+ tb +:+ "-" +:+ nl
  +:+ "B" +:+ tb +:+ "B*07:02" +:+ tb +:+ "-" +:+ nl.

(** "Lines with at least 3 columns and the same gene in column 0: only
    the calls from the last such line": the delimited-tuple rule as worded,
    the columns being those of the line as it stands in the file. *)
Definition stated_estimation_line (results : gmap string (list string))
                                  (line : string) : gmap string (list string) :=
  if strip line =? "" then results
  else
    match split tab (chomp line) with
    | p0 :: p1 :: p2 :: _ =>
        <[strip p0 := List.filter is_call [strip p1; strip p2]]> results
    | _ => results
    end.

Definition stated_estimation_result (raw : string) : gmap string (list string) :=
  fold_left stated_estimation_line (file_lines (read_text raw)) ∅.

(** A final-result file whose second line for gene A ends with a tab: its
    third column is empty. *)
Definition estimation_trailing_tab : string :=
  "A" +:+ tb +:+ "x" +:+ tb +:+ "y" +:+ nl
  +:+ "A" +:+ tb +:+ "z" +:+ tb +:+ nl.

(** A report with a single match, of rank 3. *)
Definition rank3_report : string := "3 ranked A*01:01 (abundance: 5.0%)".

(** A report whose rank-2 call comes before its rank-1 call. *)
Definition unordered_report : string :=
  "2 ranked A*02:01 (abundance: 44.50%)" +:+ nl
  +:+ "1 ranked A*01:01 (abundance: 55.50%)".

(** "Empty or whitespace-only input text". *)
Definition whitespace_only (raw : string) : Prop :=
  all_chars is_space raw = true.

(** A line as iterating a text file yields it: no line break inside, at
    most a newline at its end. *)
Definition plain (c : ascii) : bool := negb (Csv.is_nl c).

Definition line_ok (l : string) : Prop :=
  ∃ body, all_chars plain body = true
          ∧ (l = body ∨ l = body +:+ String newline EmptyString).

(** No double quote. *)
Definition no_quote (c : ascii) : bool := negb (Ascii.eqb c Csv.quotechar).

(** The tab-separated fields of a line; a blank line has none. *)
Definition fields_of (line : string) : list string :=
  match chomp line with
  | EmptyString => []
  | body => split tab body
  end.

(** The rows of a table read by splitting its lines at the tabs: the first
    line is the header, blank lines after it are passed over. *)
Definition split_rows (lines : list string) : list (gmap string (option string)) :=
  match map fields_of lines with
  | [] => []
  | fieldnames :: records =>
      map (Csv.row_dict fieldnames)
          (List.filter (λ r, negb (Csv.is_blank_record r)) records)
  end.

(** A field the csv reader can hold, and a text all of whose tab-separated
    fields are such. *)
Definition fits (f : string) : bool :=
  (N.of_nat (String.length f) <=? Csv.field_limit)%N.

Definition fields_fit (raw : string) : bool :=
  forallb (λ l, forallb fits (fields_of l)) (file_lines (read_text raw)).

(** A line of blanks one character longer than a field may be. *)
Fixpoint spaces (n : nat) : string :=
  match n with
  | 0 => EmptyString
  | S n' => String " " (spaces n')
  end.

Definition long_blank_line : string :=
  spaces (N.to_nat (Csv.field_limit + 1)) +:+ nl.

(** The genotype table of the TSV example, and one whose A1 value is a
    single space. *)
Definition genotype_header : list string := ["A1"; "A2"; "B1"; "B2"; "C1"; "C2"].

Definition genotype_row : gmap string (option string) :=
  Csv.row_dict genotype_header ["02:01"; "03:01"; ""; ""; "07:02"; "07:02"].

Definition genotype_tsv : string :=
  "A1" +:+ tb +:+ "A2" +:+ tb +:+ "B1" +:+ tb +:+ "B2" +:+ tb +:+ "C1" +:+ tb
  +:+ "C2" +:+ nl
  +:+ "02:01" +:+ tb +:+ "03:01" +:+ tb +:+ tb +:+ tb +:+ "07:02" +:+ tb
  +:+ "07:02" +:+ nl.

Definition padded_row : gmap string (option string) :=
  Csv.row_dict genotype_header [" "; ""; ""; ""; "07:02"; "07:02"].

Definition padded_tsv : string :=
  "A1" +:+ tb +:+ "A2" +:+ tb +:+ "B1" +:+ tb +:+ "B2" +:+ tb +:+ "C1" +:+ tb
  +:+ "C2" +:+ nl
  +:+ " " +:+ tb +:+ tb +:+ tb +:+ tb +:+ "07:02" +:+ tb +:+ "07:02" +:+ nl.

(** The Corpus [collect_all_results] builds from that one report. *)
Definition unordered_corpus : gmap string (gmap string (list allele_info)) :=
  {[ "S1" := {[ "A" := [ {| rank := 2; allele := "02:01"; abundance := 89 # 2 |};
                         {| rank := 1; allele := "01:01"; abundance := 111 # 2 |} ] ]} ]}.

Definition unordered_sample : filesystem :=
  only_hisat (Some [ {| entry_name := "S1"; is_dir := true;
                        report_files := [unordered_report] |} ]).

End Stated.

(** ** Further notions used by the properties of the code *)

Module Shape.
Import Text Num Regex Extract.

(** The character classes of the capturing groups of a pattern, in order. *)
Fixpoint classes (p : list atom) : list (ascii → bool) :=
  match p with
  | [] => []
  | Lit _ :: p' => classes p'
  | Group cls :: p' => cls :: classes p'
  end.

(** A non-empty token all of whose characters are in a class. *)
Definition token (cls : ascii → bool) (s : string) : Prop :=
  s ≠ "" ∧ all_chars cls s = true.

Definition gene_char (c : ascii) : bool := is_upper c || is_digit c.
Definition allele_char (c : ascii) : bool := negb (is_space c).
Definition abundance_char (c : ascii) : bool := is_digit c || is_dot c.

(** A match whose abundance token [float] rejects. *)
Definition malformed (m : ranked_match) : Prop :=
  float (m_abundance m) = Raise ValueError.

(** A match whose rank token has more digits than [int] takes. *)
Definition overlong (m : ranked_match) : Prop :=
  (int_max_str_digits < N.of_nat (String.length (m_rank m)))%N.

(** No capital G. *)
Definition not_G (c : ascii) : bool := negb (Ascii.eqb c "G").

(** A best-guess file: a header line, then the text of the data lines. *)
Definition with_header (header body : string) : string :=
  header +:+ String newline EmptyString +:+ body.

(** The documents a run wrote, with their paths, in order. *)
Definition documents (log : list event) : list (string * document) :=
  flat_map (λ e, match e with
                 | FileWritten path doc => [(path, doc)]
                 | _ => []
                 end) log.

(** What the Sample x Gene matrix shows for a sample and gene of a store:
    the stored calls in rank order, or the cell without calls, which this
    view prints as a dash. *)
Definition table_cell (all_data : gmap string (gmap string (list allele_info)))
                      (gene sample : string) : cell :=
  match Stated.stored all_data sample gene with
  | Some ranked_alleles => Ranked (sorted_by rank N.leb ranked_alleles)
  | None => NoData
  end.

Definition table_document (all_data : gmap string (gmap string (list allele_info)))
                          (samples genes : list string) : document :=
  {| columns := "Gene" :: samples;
     rows := map (λ gene, (gene, map (table_cell all_data gene) samples)) genes |}.

(** The names of the directories of a root, as [Merge.main] walks them. *)
Definition sample_names (entries : list dir_entry) : list string :=
  map entry_name (List.filter is_dir (sorted_by entry_name str_le entries)).

Definition comparison_path (sample_name : string) : string :=
  "comparison_results" +:+ "/" +:+ sample_name +:+ "_comparison.html".

(** A root with two directories; the report of the second has a rank-1
    match whose abundance is no number. *)
Definition malformed_sample : filesystem :=
  Stated.only_hisat (Some
    [ {| entry_name := "S1"; is_dir := true;
         report_files := ["1 ranked A*01:01 (abundance: 55.50%)"] |};
      {| entry_name := "S2"; is_dir := true;
         report_files := ["1 ranked A*01:01 (abundance: 1.2.3%)"] |} ]).

End Shape.

(** * Verification *)

(** ** Facts about text *)

Section TextFacts.
Import Text.

Lemma all_chars_app P a b :
  all_chars P (a +:+ b) = all_chars P a && all_chars P b.
Proof.
  induction a as [|c a IH]; simpl; [done|].
  rewrite IH. by destruct (P c).
Qed.

Lemma app_empty_r s : s +:+ "" = s.
Proof.
  induction s as [|c s IH]; [done|].
  change (String c (s +:+ "") = String c s). by f_equal.
Qed.

Lemma space_not_digit c : is_space c = true → is_digit c = false.
Proof. destruct c as [[] [] [] [] [] [] [] []]; vm_compute; congruence. Qed.

Lemma space_newline : is_space newline = true.
Proof. reflexivity. Qed.

Lemma all_space_lstrip s : all_chars is_space s = true → lstrip s = "".
Proof.
  induction s as [|c s IH]; simpl; [done|].
  intros [Hc Hs]%andb_prop. rewrite Hc. auto.
Qed.

Lemma all_space_strip s : all_chars is_space s = true → strip s = "".
Proof. intros H. unfold strip. by rewrite all_space_lstrip. Qed.

Lemma all_space_read_text s :
  all_chars is_space s = true → all_chars is_space (read_text s) = true.
Proof.
  induction s as [|c s IH]; simpl; [done|].
  intros [Hc Hs]%andb_prop. specialize (IH Hs).
  destruct (Ascii.eqb c carriage_return).
  - destruct s as [|c' s']; [done|].
    destruct (Ascii.eqb c' newline); [done|].
    simpl in *. by rewrite IH.
  - simpl. by rewrite Hc, IH.
Qed.

Lemma all_space_lines s : ∀ cur,
  all_chars is_space s = true →
  all_chars is_space (default "" cur) = true →
  Forall (λ l, all_chars is_space l = true) (lines_from cur s).
Proof.
  induction s as [|c s IH]; simpl; intros cur Hs Hcur.
  - destruct cur; [by constructor | constructor].
  - apply andb_prop in Hs as [Hc Hs].
    assert (all_chars is_space (default "" cur +:+ String c "") = true) as Hl.
    { rewrite all_chars_app, Hcur. simpl. by rewrite Hc. }
    destruct (Ascii.eqb c newline).
    + constructor; [done|]. by apply IH.
    + by apply IH.
Qed.

Lemma append_cons c s t : String c s +:+ t = String c (s +:+ t).
Proof. reflexivity. Qed.

Lemma append_assoc (a b c : string) : (a +:+ b) +:+ c = a +:+ b +:+ c.
Proof.
  induction a as [|x a IH]; [done|]. rewrite !append_cons. by f_equal.
Qed.

Lemma read_text_plain h s :
  all_chars Stated.plain h = true → read_text (h +:+ s) = h +:+ read_text s.
Proof.
  induction h as [|c h IH]; [done|]. simpl.
  intros [Hc Hh]%andb_prop. rewrite !append_cons. simpl.
  unfold Stated.plain, Csv.is_nl in Hc.
  destruct (Ascii.eqb c carriage_return); [by rewrite orb_true_r in Hc|].
  by rewrite IH.
Qed.

Lemma lines_from_plain h t : ∀ cur,
  all_chars Stated.plain h = true →
  lines_from cur (h +:+ String newline t)
  = (default "" cur +:+ h +:+ String newline "") :: lines_from None t.
Proof.
  induction h as [|c h IH]; intros cur Hh.
  - change ("" +:+ String newline t) with (String newline t).
    cbn [lines_from]. by rewrite Ascii.eqb_refl.
  - simpl in Hh. apply andb_prop in Hh as [Hc Hh].
    rewrite append_cons. cbn [lines_from].
    unfold Stated.plain, Csv.is_nl in Hc.
    destruct (Ascii.eqb c newline); [done|].
    rewrite IH by done. simpl. f_equal.
    clear. destruct cur as [l|]; simpl.
    + induction l as [|a l IHl]; [done|]. rewrite !append_cons. by f_equal.
    + done.
Qed.

Lemma all_chars_read_text P s :
  P newline = true → all_chars P s = true → all_chars P (read_text s) = true.
Proof.
  intros Hn. induction s as [|c s IH]; simpl; [done|].
  intros [Hc Hs]%andb_prop. specialize (IH Hs).
  destruct (Ascii.eqb c carriage_return).
  - destruct s as [|c' s']; [by simpl; rewrite Hn|].
    destruct (Ascii.eqb c' newline); [done|].
    simpl in *. by rewrite Hn, IH.
  - simpl. by rewrite Hc, IH.
Qed.

Lemma all_chars_lines P s : ∀ cur,
  all_chars P s = true → all_chars P (default "" cur) = true →
  Forall (λ l, all_chars P l = true) (lines_from cur s).
Proof.
  induction s as [|c s IH]; simpl; intros cur Hs Hcur.
  - destruct cur; [by constructor | constructor].
  - apply andb_prop in Hs as [Hc Hs].
    assert (all_chars P (default "" cur +:+ String c "") = true) as Hl.
    { rewrite all_chars_app, Hcur. simpl. by rewrite Hc. }
    destruct (Ascii.eqb c newline).
    + constructor; [done|]. by apply IH.
    + by apply IH.
Qed.

Lemma all_space_file_lines raw :
  all_chars is_space raw = true →
  Forall (λ l, strip l = "") (file_lines (read_text raw)).
Proof.
  intros H. eapply Forall_impl.
  - apply all_space_lines; [by apply all_space_read_text | done].
  - intros l Hl. by apply all_space_strip.
Qed.

End TextFacts.

(** ** The ranked-report extractors *)

Section Grouping.
Import Text Num Regex Extract Stated.

(** Both loop bodies have one shape: make sure the gene has a list,
    convert the rank, then append the call when the rank is kept. *)
Context (keep : N → bool) (name : ranked_match → string)
        (step : gmap string (list allele_info) → ranked_match
                → result (gmap string (list allele_info))).
Hypothesis step_eq : ∀ results m,
  step results m =
    let results := ensure_key (m_gene m) results in
    r ← int (m_rank m);
    if keep r then
      ab ← float (m_abundance m);
      Ok (append_at (m_gene m)
            {| rank := r; allele := name m; abundance := ab |}
            results)
    else Ok results.

Local Abbreviation built := (λ (m : ranked_match) (c : allele_info),
  int (m_rank m) = Ok (rank c) ∧ allele c = name m
  ∧ float (m_abundance m) = Ok (abundance c)).

Lemma ensure_key_lookup {A} g g' (r : gmap string (list A)) :
  ensure_key g r !! g' =
    if decide (g = g') then Some (default [] (r !! g)) else r !! g'.
Proof.
  unfold ensure_key. destruct (r !! g) as [l|] eqn:E.
  - case_decide; simplify_eq; by rewrite ?E.
  - rewrite lookup_insert. by case_decide.
Qed.

Lemma append_at_lookup {A} g g' (x : A) (r : gmap string (list A)) :
  append_at g x r !! g' =
    if decide (g = g') then (λ l, l ++ [x]) <$> r !! g' else r !! g'.
Proof.
  unfold append_at. rewrite lookup_alter. by case_decide; simplify_eq.
Qed.

Lemma group_loop ms : ∀ init,
  Forall converts ms →
  ∃ res, for_each step ms init = Ok res ∧
    ∀ g, (List.filter (of_gene g) ms = [] → res !! g = init !! g)
       ∧ (List.filter (of_gene g) ms ≠ [] →
          ∃ calls, res !! g = Some (default [] (init !! g) ++ calls)
            ∧ Forall2 built
                (List.filter (ranked keep) (List.filter (of_gene g) ms)) calls).
Proof.
  induction ms as [|m ms IH]; intros init Hfl.
  - exists init. split; [done|]. intros g. split; [done|]. by simpl.
  - apply Forall_cons in Hfl as [[[r Hr] [q Hq]] Hfl].
    set (kept := if keep r
                 then [{| rank := r; allele := name m; abundance := q |}]
                 else []).
    assert (ranked keep m = keep r) as Hk by (unfold ranked; by rewrite Hr).
    assert (∃ init', step init m = Ok init' ∧
              ∀ g, init' !! g = if decide (m_gene m = g)
                                then Some (default [] (init !! g) ++ kept)
                                else init !! g) as (init' & Hstep & Hinit').
    { rewrite step_eq. cbv zeta. rewrite Hr. simpl. subst kept.
      destruct (keep r).
      - rewrite Hq. simpl. eexists. split; [done|]. intros g.
        rewrite append_at_lookup, ensure_key_lookup.
        case_decide; [|done]. by simplify_eq.
      - eexists. split; [done|]. intros g. rewrite ensure_key_lookup.
        case_decide; [|done]. simplify_eq. by rewrite app_nil_r. }
    destruct (IH init' Hfl) as (res & Hres & Hg).
    exists res. split.
    { simpl. rewrite Hstep. exact Hres. }
    intros g. destruct (Hg g) as [Hnone Hsome]. rewrite Hinit' in Hnone, Hsome.
    simpl. destruct (of_gene g m) eqn:Eg.
    + apply String.eqb_eq in Eg as <-.
      rewrite decide_True in Hnone, Hsome by done. split; [done|]. intros _.
      assert (Forall2 built (if keep r then [m] else []) kept) as Hb.
      { subst kept. destruct (keep r); repeat constructor; done. }
      destruct (List.filter (of_gene (m_gene m)) ms) as [|h hits] eqn:Eh.
      * exists kept. split; [by apply Hnone|]. simpl. rewrite Hk.
        by destruct (keep r).
      * destruct Hsome as (calls & Hl & Hf2); [done|].
        exists (kept ++ calls). split.
        { rewrite Hl. simpl. by rewrite <- app_assoc. }
        cbn [List.filter] in *. rewrite Hk. destruct (keep r).
        -- subst kept. constructor; [|done]. by inversion Hb.
        -- subst kept. done.
    + apply String.eqb_neq in Eg.
      rewrite decide_False in Hnone, Hsome by done. split; done.
Qed.

End Grouping.

Section Matches.
Import Text Num Regex Extract.

Lemma match_here_groups p : ∀ s caps rest,
  match_here p s = Some (caps, rest) → List.length caps = groups p.
Proof.
  induction p as [|[l|cls] p IH]; intros s caps rest; cbn [match_here groups].
  - by intros [= <- _].
  - destruct (strip_prefix l s); [apply IH | done].
  - generalize (run_length cls s). intros k.
    induction k as [|k IHk]; [done|].
    destruct (match_here p (drop (S k) s)) as [[caps' rest']|] eqn:E.
    + intros [= <- _]. simpl. f_equal. by eapply IH.
    + apply IHk.
Qed.

Lemma findall_from_groups p s : ∀ skip,
  Forall (λ caps, List.length caps = groups p) (findall_from p skip s).
Proof.
  induction s as [|c s IH]; intros skip; cbn [findall_from]; [constructor|].
  destruct skip as [|skip]; [|apply IH].
  destruct (match_here p (String c s)) as [[caps rest]|] eqn:E; [|apply IH].
  constructor; [by eapply match_here_groups | apply IH].
Qed.

(** Every tuple [findall] returns has the four groups of the pattern, so
    [matches] passes over none. *)
Lemma matches_all_found content :
  Forall2 (λ caps m, caps = [m_rank m; m_gene m; m_allele m; m_abundance m])
          (findall pattern content) (matches content).
Proof.
  unfold matches, findall.
  pose proof (findall_from_groups pattern content 0) as H.
  induction H as [|caps l Hc _ IH]; [constructor|].
  destruct caps as [|r [|g [|a [|ab [|? ?]]]]]; try discriminate.
  cbn [omap as_match]. by constructor.
Qed.

End Matches.

Section RankedReports.
Import Text Num Regex Extract Stated.

(** The rank is converted a second time for the call that is stored, with
    the same outcome. *)
Lemma hisat_step_eq results m :
  hisat_step results m =
    let results := ensure_key (m_gene m) results in
    r ← int (m_rank m);
    if (r <=? 2)%N then
      ab ← float (m_abundance m);
      Ok (append_at (m_gene m)
            {| rank := r;
               allele := "HLA-" +:+ m_gene m +:+ "*" +:+ m_allele m;
               abundance := ab |}
            results)
    else Ok results.
Proof. unfold hisat_step. cbv zeta. by destruct (int (m_rank m)). Qed.

Lemma ranked_all ms :
  Forall converts ms → List.filter (ranked (λ _, true)) ms = ms.
Proof.
  induction 1 as [|m ms [[r Hr] _] _ IH]; [done|].
  cbn [List.filter]. unfold ranked at 1. by rewrite Hr, IH.
Qed.

Lemma Forall_filter_keeps {A} (P : A → Prop) f l :
  Forall P l → Forall P (List.filter f l).
Proof.
  induction 1 as [|x l Hx _ IH]; [constructor|].
  cbn [List.filter]. destruct (f x); [by constructor | done].
Qed.

Lemma report_by_gene raw :
  Forall converts (matches (read_text raw)) →
  ∃ res, parse_report_file raw = Ok res ∧
    ∀ g, (List.filter (of_gene g) (matches (read_text raw)) = [] → res !! g = None)
       ∧ (List.filter (of_gene g) (matches (read_text raw)) ≠ [] →
          ∃ calls, res !! g = Some calls
            ∧ Forall2 report_call
                (List.filter (of_gene g) (matches (read_text raw))) calls).
Proof.
  intros Hfl.
  destruct (group_loop (λ _, true) m_allele report_step) with
    (ms := matches (read_text raw)) (init := ∅ : gmap string (list allele_info))
    as (res & Hres & Hg); [done | done |].
  exists res. split; [done|]. intros g. destruct (Hg g) as [Hnone Hsome].
  split; [intros E; by rewrite (Hnone E), lookup_empty|].
  intros Hne. destruct (Hsome Hne) as (calls & Hl & Hf2).
  exists calls. rewrite lookup_empty in Hl. split; [done|].
  by rewrite ranked_all in Hf2 by (by apply Forall_filter_keeps).
Qed.

Lemma hisat_by_gene raw :
  Forall converts (matches (read_text raw)) →
  ∃ res, parse_hisat_report raw = Ok res ∧
    ∀ g, (List.filter (of_gene g) (matches (read_text raw)) = [] → res !! g = None)
       ∧ (List.filter (of_gene g) (matches (read_text raw)) ≠ [] →
          ∃ calls, res !! g = Some calls
            ∧ Forall2 hisat_call
                (List.filter top2 (List.filter (of_gene g) (matches (read_text raw))))
                calls).
Proof.
  intros Hfl.
  destruct (group_loop (λ r, (r <=? 2)%N)
              (λ m, "HLA-" +:+ m_gene m +:+ "*" +:+ m_allele m)
              hisat_step hisat_step_eq) with
    (ms := matches (read_text raw)) (init := ∅ : gmap string (list allele_info))
    as (res & Hres & Hg); [done |].
  exists res. split; [done|]. intros g. destruct (Hg g) as [Hnone Hsome].
  split; [intros E; by rewrite (Hnone E), lookup_empty|].
  intros Hne. destruct (Hsome Hne) as (calls & Hl & Hf2).
  exists calls. rewrite lookup_empty in Hl. by split.
Qed.

Lemma Forall2_pick {A B} (R : A → B → Prop) l k x :
  Forall2 R l k → x ∈ l → ∃ y, y ∈ k ∧ R x y.
Proof.
  induction 1 as [|a b l k Hab _ IH]; intros Hx.
  - by apply elem_of_nil in Hx.
  - apply elem_of_cons in Hx as [->|Hx].
    + exists b. split; [apply elem_of_cons; by left | done].
    + destruct (IH Hx) as (y & ? & ?).
      exists y. split; [apply elem_of_cons; by right | done].
Qed.

Lemma in_own_gene (m : ranked_match) ms :
  m ∈ ms → m ∈ List.filter (of_gene (m_gene m)) ms.
Proof.
  rewrite !list_elem_of_In, filter_In. intros H. split; [done|].
  apply String.eqb_refl.
Qed.

(** C1, as the code has it: when the rank and abundance tokens of the
    matches convert, [parse_report_file] returns every match, all ranks,
    gene by gene in the order met; [parse_hisat_report] records every
    matched gene but keeps, inside the extractor, only the matches of rank
    at most 2, that is of rank 0, 1 or 2. *)
Theorem ranked_extractors_by_gene raw :
  Forall converts (matches (read_text raw)) →
  returns_every_match parse_report_file raw
  ∧ (∃ res, parse_report_file raw = Ok res ∧
      ∀ g, (List.filter (of_gene g) (matches (read_text raw)) = [] → res !! g = None)
         ∧ (List.filter (of_gene g) (matches (read_text raw)) ≠ [] →
            ∃ calls, res !! g = Some calls
              ∧ Forall2 report_call
                  (List.filter (of_gene g) (matches (read_text raw))) calls))
  ∧ (∃ res, parse_hisat_report raw = Ok res ∧
      ∀ g, (List.filter (of_gene g) (matches (read_text raw)) = [] → res !! g = None)
         ∧ (List.filter (of_gene g) (matches (read_text raw)) ≠ [] →
            ∃ calls, res !! g = Some calls
              ∧ Forall2 hisat_call
                  (List.filter top2
                     (List.filter (of_gene g) (matches (read_text raw))))
                  calls)).
Proof.
  intros Hfl. split; [|split; [by apply report_by_gene | by apply hisat_by_gene]].
  intros res Hres m Hm.
  destruct (report_by_gene raw Hfl) as (res' & Hres' & Hg).
  rewrite Hres in Hres'. injection Hres' as <-.
  destruct (Hg (m_gene m)) as [_ Hsome].
  pose proof (in_own_gene m _ Hm) as Hin.
  destruct Hsome as (calls & Hl & Hf2).
  { intros E. rewrite E in Hin. by apply elem_of_nil in Hin. }
  destruct (Forall2_pick _ _ _ _ Hf2 Hin) as (c & Hc & Hb).
  exists calls, c. split_and!; [done | done | apply Hb].
Qed.

End RankedReports.

Section RankedReportsExamples.
Import Text Num Regex Extract Stated.

Example rank3_matches :
  matches (read_text rank3_report) =
    [ {| m_rank := "3"; m_gene := "A"; m_allele := "01:01"; m_abundance := "5.0" |} ].
Proof. vm_compute. reflexivity. Qed.

Example rank3_report_file :
  parse_report_file rank3_report =
    Ok {[ "A" := [ {| rank := 3; allele := "01:01"; abundance := 5 |} ] ]}.
Proof. vm_compute. reflexivity. Qed.

Example rank3_hisat_report :
  parse_hisat_report rank3_report = Ok {[ "A" := [] ]}.
Proof. vm_compute. reflexivity. Qed.

(** Rank 0 passes the test of [parse_hisat_report] as ranks 1 and 2 do. *)
Example rank0_hisat_report :
  parse_hisat_report "0 ranked A*01:01 (abundance: 5.0%)"
  = Ok {[ "A" := [ {| rank := 0; allele := "HLA-A*01:01"; abundance := 5 |} ] ]}.
Proof. vm_compute. reflexivity. Qed.

Lemma ranked_extractors_by_gene_witness :
  Forall converts (matches (read_text rank3_report))
  ∧ returns_every_match parse_report_file rank3_report.
Proof.
  assert (Forall converts (matches (read_text rank3_report))) as H.
  { rewrite rank3_matches. repeat constructor.
    - exists 3%N. reflexivity.
    - exists 5%Q. reflexivity. }
  split; [exact H|].
  exact (proj1 (ranked_extractors_by_gene rank3_report H)).
Defined.

(** C1 as stated fails for [parse_hisat_report]: the only match of the
    report has rank 3 and is not among the calls returned. *)
Lemma hisat_report_drops_rank3 :
  ¬ returns_every_match parse_hisat_report rank3_report.
Proof.
  intros H.
  destruct (H _ rank3_hisat_report
              {| m_rank := "3"; m_gene := "A"; m_allele := "01:01";
                 m_abundance := "5.0" |})
    as (calls & c & Hl & Hc & _).
  - rewrite rank3_matches. apply elem_of_cons. by left.
  - simpl in Hl. rewrite lookup_singleton_eq in Hl. injection Hl as <-.
    by apply elem_of_nil in Hc.
Qed.

End RankedReportsExamples.

(** ** The delimited-tuple and fixed-column extractors *)

Section Lines.
Import Text Extract Stated.

Lemma estimation_line_cols results line p0 p1 p2 rest :
  split tab (strip line) = p0 :: p1 :: p2 :: rest →
  estimation_line results line =
    <[strip p0 := List.filter is_call [strip p1; strip p2]]> results.
Proof.
  intros Hs. unfold estimation_line.
  destruct (String.eqb_spec (strip line) "") as [E|_].
  { rewrite E in Hs. discriminate. }
  rewrite Hs. cbv zeta. unfold append_at. simpl.
  destruct (is_call (strip p1)), (is_call (strip p2));
    by rewrite ?alter_insert_eq.
Qed.

Lemma estimation_line_cases results line :
  estimation_line results line = results
  ∨ ∃ p0 p1 p2 rest, split tab (strip line) = p0 :: p1 :: p2 :: rest.
Proof.
  destruct (split tab (strip line)) as [|p0 [|p1 [|p2 rest]]] eqn:E;
    [left | left | left | right; eauto];
    unfold estimation_line; rewrite E; by destruct (strip line =? "").
Qed.

Lemma is_call_filter (l : list string) :
  ("-" ∉ List.filter is_call l) ∧ ("Not typed" ∉ List.filter is_call l).
Proof.
  split; rewrite list_elem_of_In, filter_In; by intros [_ ?].
Qed.

Lemma estimation_lines_calls lines : ∀ init,
  (∀ g calls, init !! g = Some calls → ("-" ∉ calls) ∧ ("Not typed" ∉ calls)) →
  ∀ g calls, fold_left estimation_line lines init !! g = Some calls →
             ("-" ∉ calls) ∧ ("Not typed" ∉ calls).
Proof.
  induction lines as [|line lines IH]; intros init Hinit; simpl; [done|].
  apply IH. intros g calls.
  destruct (estimation_line_cases init line) as [->|(p0 & p1 & p2 & rest & Hs)];
    [by apply Hinit|].
  rewrite (estimation_line_cols _ _ _ _ _ _ Hs), lookup_insert.
  case_decide; [|by apply Hinit].
  intros Heq.
  assert (calls = List.filter is_call [strip p1; strip p2]) as -> by congruence.
  apply is_call_filter.
Qed.

Lemma estimation_lines_other lines gene : ∀ init,
  (∀ l q0 q1 q2 r, l ∈ lines → split tab (strip l) = q0 :: q1 :: q2 :: r →
                   strip q0 ≠ gene) →
  fold_left estimation_line lines init !! gene = init !! gene.
Proof.
  induction lines as [|line lines IH]; intros init Hl; simpl; [done|].
  rewrite IH.
  - destruct (estimation_line_cases init line) as [->|(p0 & p1 & p2 & rest & Hs)];
      [done|].
    rewrite (estimation_line_cols _ _ _ _ _ _ Hs), lookup_insert_ne; [done|].
    eapply Hl; [|done]. apply elem_of_cons. by left.
  - intros l q0 q1 q2 r Hin. apply Hl. apply elem_of_cons. by right.
Qed.

(** C5: a line with at least three columns leaves its gene with exactly
    the columns 1 and 2 that are calls, a sentinel being dropped rather
    than kept as a placeholder; no sequence of the final result holds
    "-" or "Not typed". *)
Theorem estimation_omits_sentinels raw before line after p0 p1 p2 rest :
  file_lines (read_text raw) = before ++ line :: after →
  split tab (strip line) = p0 :: p1 :: p2 :: rest →
  fold_left estimation_line (before ++ [line]) ∅ !! strip p0
    = Some (List.filter is_call [strip p1; strip p2])
  ∧ is_call "-" = false ∧ is_call "Not typed" = false
  ∧ ∀ gene calls, parse_estimation_result raw !! gene = Some calls →
                  ("-" ∉ calls) ∧ ("Not typed" ∉ calls).
Proof.
  intros _ Hs. split_and!; [|done|done|].
  - rewrite fold_left_app. simpl.
    by rewrite (estimation_line_cols _ _ _ _ _ _ Hs), lookup_insert_eq.
  - unfold parse_estimation_result. apply estimation_lines_calls.
    intros g calls. by rewrite lookup_empty.
Qed.

Lemma estimation_omits_sentinels_witness :
  parse_estimation_result estimation_sample !! "A" = Some ["A*01:01"].
Proof.
  pose proof (estimation_omits_sentinels estimation_sample []
                estimation_sample [] "A" "A*01:01" "Not typed" []
                eq_refl eq_refl) as [H _].
  exact H.
Defined.

(** C10, as the code has it: the columns of a line are counted after the
    whole line is trimmed, so that a trailing empty column is not counted;
    of the lines that then have at least three columns and name a gene,
    only the last one counts, and whatever earlier lines gave the gene is
    gone. *)
Theorem estimation_last_line_wins raw before line after p0 p1 p2 rest :
  file_lines (read_text raw) = before ++ line :: after →
  split tab (strip line) = p0 :: p1 :: p2 :: rest →
  (∀ l q0 q1 q2 r, l ∈ after → split tab (strip l) = q0 :: q1 :: q2 :: r →
                   strip q0 ≠ strip p0) →
  parse_estimation_result raw !! strip p0
    = Some (List.filter is_call [strip p1; strip p2]).
Proof.
  intros Hl Hs Hafter. unfold parse_estimation_result.
  rewrite Hl, fold_left_app. simpl.
  rewrite estimation_lines_other by done.
  by rewrite (estimation_line_cols _ _ _ _ _ _ Hs), lookup_insert_eq.
Qed.

Lemma estimation_last_line_wins_witness :
  parse_estimation_result estimation_repeated !! "A" = Some ["A*03:01"].
Proof.
  apply (estimation_last_line_wins estimation_repeated
           ["A" +:+ tb +:+ "A*01:01" +:+ tb +:+ "A*02:01" +:+ nl]
           ("A" +:+ tb +:+ "A*03:01" +:+ tb +:+ "-" +:+ nl)
           ["B" +:+ tb +:+ "B*07:02" +:+ tb +:+ "-" +:+ nl]
           "A" "A*03:01" "-" []); [reflexivity | reflexivity |].
  intros l q0 q1 q2 r Hin Hsp.
  apply list_elem_of_singleton in Hin. subst l.
  vm_compute in Hsp. injection Hsp as <- _ _ _. discriminate.
Defined.

(** C10 as stated fails: the second line of the file has three columns,
    the last one empty, and names gene A again, yet the result for A is
    that of the first line; trimmed, the second line has two columns and is
    passed over. *)
Lemma estimation_counts_trimmed_columns :
  file_lines (read_text estimation_trailing_tab)
    = [ "A" +:+ tb +:+ "x" +:+ tb +:+ "y" +:+ nl;
        "A" +:+ tb +:+ "z" +:+ tb +:+ nl ]
  ∧ split tab (chomp ("A" +:+ tb +:+ "z" +:+ tb +:+ nl)) = ["A"; "z"; ""]
  ∧ split tab (strip ("A" +:+ tb +:+ "z" +:+ tb +:+ nl)) = ["A"; "z"]
  ∧ stated_estimation_result estimation_trailing_tab !! "A" = Some ["z"]
  ∧ parse_estimation_result estimation_trailing_tab !! "A" = Some ["x"; "y"].
Proof. split_and!; vm_compute; reflexivity. Qed.

(** The fixed-column extractor appends instead. *)
Lemma hlala_line_appends results line p0 p1 p2 rest :
  split tab (strip line) = p0 :: p1 :: p2 :: rest →
  ∃ call, hlala_line results line !! strip p0
          = Some (default [] (results !! strip p0) ++ [call]).
Proof.
  intros Hs. unfold hlala_line.
  destruct (String.eqb_spec (strip line) "") as [E|_].
  { rewrite E in Hs. discriminate. }
  rewrite Hs. cbv zeta. eexists.
  rewrite append_at_lookup, decide_True, ensure_key_lookup, decide_True by done.
  reflexivity.
Qed.

(** C3: on the sample best-guess file the code removes every G of the
    token, the gene letter of locus G included, and leaves the null
    marker N in place; the rule as worded removes the last character of
    each token only. *)
Theorem hlala_marker_divergence :
  parse_hlala_result (Some bestguess_sample)
    = {[ "G" := ["HLA-*01:01:01"]; "A" := ["HLA-A*01:11N"] ]}
  ∧ "HLA-" +:+ strip_marker "G*01:01:01G" = "HLA-G*01:01:01"
  ∧ "HLA-" +:+ strip_marker "A*01:11N" = "HLA-A*01:11".
Proof. split_and!; vm_compute; reflexivity. Qed.

End Lines.

(** ** Sorting *)

Section SortingFacts.
Context {A K : Type} (key : A → K) (le : K → K → bool).
Hypothesis le_total : ∀ a b, le a b = true ∨ le b a = true.

Local Abbreviation R := (λ a b : A, le (key a) (key b) = true).

Lemma insort_Permutation x l : Permutation (insort key le x l) (x :: l).
Proof.
  induction l as [|y l IH]; simpl; [done|].
  destruct (le (key x) (key y)); [done|].
  rewrite IH. apply perm_swap.
Qed.

Lemma sorted_by_Permutation l : Permutation (sorted_by key le l) l.
Proof.
  induction l as [|x l IH]; simpl; [done|].
  by rewrite insort_Permutation, IH.
Qed.

Lemma insort_HdRel y x l :
  R y x → HdRel R y l → HdRel R y (insort key le x l).
Proof.
  intros Hyx Hl. destruct l as [|z l]; simpl; [by constructor|].
  destruct (le (key x) (key z)); constructor; [done|].
  by inversion Hl.
Qed.

Lemma insort_Sorted x l : Sorted R l → Sorted R (insort key le x l).
Proof.
  induction 1 as [|y l Hl IH Hhd]; simpl; [by repeat constructor|].
  destruct (le (key x) (key y)) eqn:E.
  - constructor; [by constructor|]. by constructor.
  - constructor; [done|]. apply insort_HdRel; [|done].
    cbv beta. destruct (le_total (key x) (key y)); congruence.
Qed.

Lemma sorted_by_Sorted l : Sorted R (sorted_by key le l).
Proof.
  induction l as [|x l IH]; simpl; [constructor|]. by apply insort_Sorted.
Qed.

(** A list already in order is left as it is, equal keys included. *)
Lemma sorted_by_fixed l : Sorted R l → sorted_by key le l = l.
Proof.
  induction 1 as [|x l Hl IH Hhd]; simpl; [done|].
  rewrite IH. destruct Hhd as [|y l' Hxy]; simpl; [done|].
  cbv beta in Hxy. by rewrite Hxy.
Qed.

Lemma sorted_by_idem l :
  sorted_by key le (sorted_by key le l) = sorted_by key le l.
Proof. apply sorted_by_fixed, sorted_by_Sorted. Qed.

End SortingFacts.

Lemma str_le_total a b : Text.str_le a b = true ∨ Text.str_le b a = true.
Proof. apply String.leb_total. Qed.

Lemma N_leb_total a b : (a <=? b)%N = true ∨ (b <=? a)%N = true.
Proof. rewrite !N.leb_le. lia. Qed.

(** ** The Gene x Method matrix *)

Section GeneMethod.
Import Text Extract Stated Merge.

Lemma allele_cell_names m g : names_cell (m !! g) (allele_cell m g).
Proof.
  unfold names_cell, allele_cell. destruct (m !! g) as [[|x l]|]; [done| |done].
  eexists. split_and!; [done| |].
  - apply sorted_by_Permutation.
  - apply (sorted_by_Sorted id str_le str_le_total).
Qed.

Lemma hisat_cell_calls m g : calls_cell (m !! g) (hisat_cell m g).
Proof.
  unfold calls_cell, hisat_cell. destruct (m !! g) as [[|x l]|]; [done| |done].
  eexists. split_and!; [done| |].
  - apply sorted_by_Permutation.
  - apply (sorted_by_Sorted allele str_le str_le_total).
Qed.

(** C9: the rows of a sample's matrix are the genes of the union of its
    four method results, each once, in lexicographic order; the columns are
    fixed; a cell lists the stored alleles in lexicographic order of allele
    name, whatever their ranks. *)
Theorem gene_method_matrix data :
  columns (sample_document data)
    = ["Gene"; "OptiType"; "HLA-LA"; "HLA-HD"; "HISAT-genotype"]
  ∧ NoDup (map fst (rows (sample_document data)))
  ∧ Sorted (λ a b, str_le a b = true) (map fst (rows (sample_document data)))
  ∧ (∀ g, g ∈ map fst (rows (sample_document data)) ↔
          g ∈ dom (hisat data) ∪ dom (estimation data)
              ∪ dom (optitype data) ∪ dom (hlala data))
  ∧ ∀ g cells, (g, cells) ∈ rows (sample_document data) →
      ∃ c1 c2 c3 c4, cells = [c1; c2; c3; c4]
        ∧ names_cell (optitype data !! g) c1
        ∧ names_cell (hlala data !! g) c2
        ∧ names_cell (estimation data !! g) c3
        ∧ calls_cell (hisat data !! g) c4.
Proof.
  assert (map fst (rows (sample_document data)) = all_genes data) as ->.
  { simpl. rewrite map_map. simpl. apply map_id. }
  assert (Permutation (all_genes data)
            (elements (∅ ∪ dom (hisat data) ∪ dom (estimation data)
                         ∪ dom (optitype data) ∪ dom (hlala data)))) as Hp
    by apply sorted_by_Permutation.
  split_and!.
  - done.
  - rewrite Hp. apply NoDup_elements.
  - apply (sorted_by_Sorted id str_le str_le_total).
  - intros g. by rewrite Hp, elem_of_elements, (left_id_L ∅ (∪)).
  - intros g cells Hin. simpl in Hin.
    apply list_elem_of_fmap in Hin as (g' & Heq & _).
    unfold sample_row in Heq. injection Heq as -> ->.
    eexists _, _, _, _. split_and!; [done | | | |];
      auto using allele_cell_names, hisat_cell_calls.
Qed.

End GeneMethod.

(** ** The Sample x Gene matrix and the store *)

Section TableStore.
Import Text Extract Stated Table.

Local Abbreviation by_rank := (sorted_by rank N.leb).

Lemma by_rank_idem l : by_rank (by_rank l) = by_rank l.
Proof. apply sorted_by_idem, N_leb_total. Qed.

Lemma stored_insert all_data sample sample_results gene l s g :
  all_data !! sample = Some sample_results →
  stored (<[sample := <[gene := l]> sample_results]> all_data) s g =
    if decide (s = sample ∧ g = gene) then Some l else stored all_data s g.
Proof.
  intros Hs. unfold stored.
  destruct (decide (s = sample)) as [->|Hne].
  - rewrite lookup_insert_eq, Hs. simpl.
    destruct (decide (g = gene)) as [->|Hg].
    + rewrite lookup_insert_eq. by rewrite decide_True.
    + rewrite lookup_insert_ne by done. rewrite decide_False; [done|].
      by intros [_ ?].
  - rewrite lookup_insert_ne by done. rewrite decide_False; [done|].
    by intros [? _].
Qed.

Lemma render_cell_stored gene all_data cells sample s g :
  stored (render_cell gene (all_data, cells) sample).1 s g =
    if decide (s = sample ∧ g = gene) then by_rank <$> stored all_data s g
    else stored all_data s g.
Proof.
  unfold render_cell.
  destruct (all_data !! sample) as [sample_results|] eqn:Es.
  - destruct (sample_results !! gene) as [l|] eqn:Eg; cbn [fst].
    + rewrite (stored_insert _ _ _ _ _ _ _ Es).
      destruct (decide (s = sample ∧ g = gene)) as [[-> ->]|]; [|done].
      unfold stored. rewrite Es. simpl. by rewrite Eg.
    + destruct (decide (s = sample ∧ g = gene)) as [[-> ->]|]; [|done].
      unfold stored. rewrite Es. simpl. by rewrite Eg.
  - cbn [fst]. destruct (decide (s = sample ∧ g = gene)) as [[-> ->]|]; [|done].
    unfold stored. by rewrite Es.
Qed.

Lemma render_cell_dom gene all_data cells sample :
  dom (render_cell gene (all_data, cells) sample).1 = dom all_data.
Proof.
  unfold render_cell.
  destruct (all_data !! sample) as [sample_results|] eqn:Es; [|done].
  destruct (sample_results !! gene); [|done]. cbn [fst].
  rewrite dom_insert_L. apply elem_of_dom_2 in Es.
  apply set_eq. intros x. rewrite elem_of_union, elem_of_singleton.
  split; [intros [->|?]; done | by right].
Qed.

(** Sorting again what is already sorted changes nothing, so the two
    nested loops compose. *)
Lemma twice_by_rank (P Q : Prop) `{Decision P, Decision Q}
    (o : option (list allele_info)) :
  (if decide P then by_rank <$> (if decide Q then by_rank <$> o else o)
   else (if decide Q then by_rank <$> o else o))
  = if decide (P ∨ Q) then by_rank <$> o else o.
Proof.
  destruct (decide P), (decide Q), (decide (P ∨ Q)); try tauto.
  destruct o as [l|]; [|done]. simpl. by rewrite by_rank_idem.
Qed.

Lemma render_cells_stored gene samples : ∀ all_data cells s g,
  stored (fold_left (render_cell gene) samples (all_data, cells)).1 s g =
    if decide (s ∈ samples ∧ g = gene) then by_rank <$> stored all_data s g
    else stored all_data s g.
Proof.
  induction samples as [|x samples IH]; intros all_data cells s g; cbn [fold_left].
  - rewrite decide_False; [done|]. intros [Hd _]. by apply elem_of_nil in Hd.
  - pose proof (render_cell_stored gene all_data cells x s g) as Hc.
    destruct (render_cell gene (all_data, cells) x) as [ad1 cells1].
    rewrite IH. cbn [fst] in Hc. rewrite Hc, twice_by_rank.
    destruct (decide (s ∈ x :: samples ∧ g = gene)) as [Hd|Hd].
    + rewrite decide_True; [done|]. destruct Hd as [Hd ->].
      apply elem_of_cons in Hd as [->|Hd]; [by right | by left].
    + rewrite decide_False; [done|]. intros [[? ->]|[-> ->]]; apply Hd.
      * split; [apply elem_of_cons; by right | done].
      * split; [apply elem_of_cons; by left | done].
Qed.

Lemma render_cells_dom gene samples : ∀ all_data cells,
  dom (fold_left (render_cell gene) samples (all_data, cells)).1 = dom all_data.
Proof.
  induction samples as [|x samples IH]; intros all_data cells; cbn [fold_left];
    [done|].
  pose proof (render_cell_dom gene all_data cells x) as Hc.
  destruct (render_cell gene (all_data, cells) x) as [ad1 cells1].
  by rewrite IH.
Qed.

Lemma render_rows_stored samples genes : ∀ all_data rows s g,
  stored (fold_left (render_row samples) genes (all_data, rows)).1 s g =
    if decide (s ∈ samples ∧ g ∈ genes) then by_rank <$> stored all_data s g
    else stored all_data s g.
Proof.
  induction genes as [|x genes IH]; intros all_data rows s g; cbn [fold_left].
  - rewrite decide_False; [done|]. intros [_ Hd]. by apply elem_of_nil in Hd.
  - pose proof (render_cells_stored x samples all_data [] s g) as Hc.
    unfold render_row at 2.
    destruct (fold_left (render_cell x) samples (all_data, [])) as [ad1 cells1].
    rewrite IH. cbn [fst] in Hc. rewrite Hc, twice_by_rank.
    destruct (decide (s ∈ samples ∧ g ∈ x :: genes)) as [Hd|Hd].
    + rewrite decide_True; [done|]. destruct Hd as [Hs Hd].
      apply elem_of_cons in Hd as [->|Hd]; [by right | by left].
    + rewrite decide_False; [done|]. intros [[? ?]|[? ->]]; apply Hd.
      * split; [done | apply elem_of_cons; by right].
      * split; [done | apply elem_of_cons; by left].
Qed.

Lemma render_rows_dom samples genes : ∀ all_data rows,
  dom (fold_left (render_row samples) genes (all_data, rows)).1 = dom all_data.
Proof.
  induction genes as [|x genes IH]; intros all_data rows; cbn [fold_left];
    [done|].
  pose proof (render_cells_dom x samples all_data []) as Hc.
  unfold render_row at 2.
  destruct (fold_left (render_cell x) samples (all_data, [])) as [ad1 cells1].
  by rewrite IH.
Qed.

(** C7, as the code has it: rendering the Sample x Gene matrix sorts in
    place, by rank, the stored list of every sample and gene it renders.
    The Corpus afterwards has the same samples and, for each, the same genes
    and the same calls, none edited, added or dropped; the order of a
    rendered list is rank order, and a list not rendered is untouched. *)
Theorem table_rendering_sorts_store all_data samples genes output_file :
  ∃ log all_data',
    generate_html_table all_data samples genes output_file = (log, Ok all_data')
    ∧ dom all_data' = dom all_data
    ∧ (∀ s g, stored all_data' s g =
              if decide (s ∈ samples ∧ g ∈ genes)
              then sorted_by rank N.leb <$> stored all_data s g
              else stored all_data s g)
    ∧ (∀ s g l', stored all_data' s g = Some l' →
         ∃ l, stored all_data s g = Some l ∧ Permutation l' l).
Proof.
  unfold generate_html_table.
  pose proof (render_rows_stored samples genes all_data []) as Hst.
  pose proof (render_rows_dom samples genes all_data []) as Hdom.
  destruct (fold_left (render_row samples) genes (all_data, [])) as [ad1 rows1].
  cbn [fst] in Hst, Hdom. eexists _, ad1. split_and!; [done | done | done |].
  intros s g l'. rewrite Hst.
  destruct (decide (s ∈ samples ∧ g ∈ genes)).
  - destruct (stored all_data s g) as [l|]; [|done]. intros [= <-].
    exists l. split; [done|]. apply sorted_by_Permutation.
  - intros ->. by exists l'.
Qed.

Example unordered_corpus_collected :
  (collect_all_results unordered_sample "hisat.output").2
    = Ok (Some (unordered_corpus, ["S1"], ["A"])).
Proof. vm_compute. reflexivity. Qed.

(** C7 as stated fails: after rendering, the list stored for S1 and A is no
    longer the one aggregation built. *)
Lemma table_rendering_reorders_store :
  ∃ log all_data',
    generate_html_table unordered_corpus ["S1"] ["A"] "hisat_results_table.html"
      = (log, Ok all_data')
    ∧ stored unordered_corpus "S1" "A"
        = Some [ {| rank := 2; allele := "02:01"; abundance := 89 # 2 |};
                 {| rank := 1; allele := "01:01"; abundance := 111 # 2 |} ]
    ∧ stored all_data' "S1" "A"
        = Some [ {| rank := 1; allele := "01:01"; abundance := 111 # 2 |};
                 {| rank := 2; allele := "02:01"; abundance := 89 # 2 |} ]
    ∧ all_data' ≠ unordered_corpus.
Proof.
  eexists _, _. split_and!.
  - vm_compute. reflexivity.
  - vm_compute. reflexivity.
  - vm_compute. reflexivity.
  - intros E. apply (f_equal (λ m, stored m "S1" "A")) in E.
    vm_compute in E. discriminate.
Qed.

End TableStore.

(** ** The csv reader *)

Section CsvFacts.
Import Text Csv Stated.

Lemma read_text_no_cr s :
  all_chars (λ c, negb (Ascii.eqb c carriage_return)) (read_text s) = true.
Proof.
  induction s as [|c s IH]; simpl; [done|].
  destruct (Ascii.eqb c carriage_return) eqn:Ec.
  - destruct s as [|c' s']; [done|].
    destruct (Ascii.eqb c' newline); [done|].
    simpl in *. by rewrite IH.
  - simpl. by rewrite Ec, IH.
Qed.

Lemma lines_from_ok s : ∀ cur,
  all_chars (λ c, negb (Ascii.eqb c carriage_return)) s = true →
  all_chars plain (default "" cur) = true →
  Forall line_ok (lines_from cur s).
Proof.
  induction s as [|c s IH]; simpl; intros cur Hs Hcur.
  - destruct cur as [l|]; [|constructor].
    constructor; [|constructor]. exists l. by split; [|left].
  - apply andb_prop in Hs as [Hc Hs].
    destruct (Ascii.eqb c newline) eqn:En.
    + apply Ascii.eqb_eq in En as ->. constructor; [|by apply IH].
      exists (default "" cur). by split; [|right].
    + apply IH; [done|]. simpl. rewrite all_chars_app, Hcur. simpl.
      unfold plain, is_nl. rewrite En.
      by destruct (Ascii.eqb c carriage_return).
Qed.

Lemma file_lines_ok raw : Forall line_ok (file_lines (read_text raw)).
Proof. apply lines_from_ok; [apply read_text_no_cr | done]. Qed.






(** Lines without a double quote: the reader splits them at the tabs, and
    raises when a field is longer than the limit. *)
Lemma string_length_app (a b : string) :
  String.length (a +:+ b) = (String.length a + String.length b)%nat.
Proof.
  induction a as [|c a IH]; [done|]. rewrite append_cons. simpl. by rewrite IH.
Qed.

Lemma glue_fields (body : string) : ∃ f0 rest, split tab body = f0 :: rest.
Proof.
  destruct body as [|c body]; simpl; [by eexists _, _|].
  destruct (Ascii.eqb c tab); [by eexists _, _|].
  destruct (split tab body); by eexists _, _.
Qed.

Lemma process_fields body : ∀ p tail f0 rest,
  all_chars plain body = true → all_chars no_quote body = true →
  state p = START_FIELD ∨ state p = IN_FIELD →
  fits (field p) = true →
  tail = "" ∨ tail = String newline "" →
  split tab body = f0 :: rest →
  process_line p (body +:+ tail)
  = if fits (field p +:+ f0) && forallb fits rest
    then Ok {| state := START_RECORD; field := "";
               fields := fields p ++ (field p +:+ f0) :: rest |}
    else Raise CsvError.
Proof.
  induction body as [|c body IH]; intros p tail f0 rest Hpl Hq Hst Hfit Htail Hsp.
  - injection Hsp as <- <-. change ("" +:+ tail) with tail.
    rewrite app_empty_r, Hfit. simpl.
    destruct Htail as [-> | ->]; simpl; unfold parse_process_char;
      by destruct Hst as [-> | ->].
  - simpl in Hpl, Hq. apply andb_prop in Hpl as [Hc Hpl].
    apply andb_prop in Hq as [Hcq Hq].
    unfold plain in Hc. apply negb_true_iff in Hc.
    unfold no_quote in Hcq. apply negb_true_iff in Hcq.
    rewrite append_cons. cbn [process_line].
    assert (parse_process_char p (Some c)
            = if Ascii.eqb c tab then Ok (parse_save_field START_FIELD p)
              else parse_add_char c IN_FIELD p) as ->.
    { unfold parse_process_char, start_field.
      destruct Hst as [-> | ->]; rewrite Hc, ?Hcq; by destruct (Ascii.eqb c tab). }
    cbn [split] in Hsp.
    destruct (glue_fields body) as (g0 & grest & Hg). rewrite Hg in Hsp.
    destruct (Ascii.eqb c tab).
    + injection Hsp as <- <-. simpl.
      rewrite (IH _ tail g0 grest) by (simpl; auto).
      simpl. rewrite app_empty_r, Hfit, <- app_assoc. reflexivity.
    + injection Hsp as <- <-. unfold parse_add_char.
      unfold fits in Hfit |- *. apply N.leb_le in Hfit.
      destruct (field_limit <=? N.of_nat (String.length (field p)))%N eqn:El.
      * apply N.leb_le in El. simpl.
        replace (N.of_nat (String.length (field p +:+ String c g0))
                 <=? field_limit)%N with false; [done|].
        symmetry. apply N.leb_gt. rewrite string_length_app. simpl. lia.
      * apply N.leb_gt in El. simpl.
        rewrite (IH _ tail g0 grest); simpl; auto.
        -- by rewrite append_assoc.
        -- unfold fits. apply N.leb_le. rewrite string_length_app. simpl. lia.
Qed.

Lemma chomp_plain body :
  all_chars plain body = true →
  chomp body = body ∧ chomp (body +:+ String newline "") = body.
Proof.
  induction body as [|c body IH]; intros H; [by split|].
  simpl in H. apply andb_prop in H as [Hc Hb]. destruct (IH Hb) as [IH1 IH2].
  unfold plain, is_nl in Hc. apply negb_true_iff, orb_false_elim in Hc as [Hc _].
  split.
  - cbn [chomp]. destruct body as [|c' body']; [by rewrite Hc|]. by rewrite IH1.
  - change (String c body +:+ String newline "")
      with (String c (body +:+ String newline "")).
    cbn [chomp]. destruct (body +:+ String newline "") as [|c' t] eqn:E.
    + by destruct body.
    + by rewrite IH2.
Qed.

Lemma process_from_start body tail :
  all_chars plain body = true → all_chars no_quote body = true →
  tail = "" ∨ tail = String newline "" →
  process_line (set_state START_FIELD parse_reset) (body +:+ tail)
  = if forallb fits (split tab body)
    then Ok {| state := START_RECORD; field := ""; fields := split tab body |}
    else Raise CsvError.
Proof.
  intros Hpl Hq Htail. destruct (glue_fields body) as (f0 & rest & Hsp).
  rewrite (process_fields body _ tail f0 rest) by (simpl; auto).
  by rewrite Hsp.
Qed.

Lemma process_unquoted_line l :
  line_ok l → all_chars no_quote l = true →
  process_line parse_reset l
  = if forallb fits (fields_of l)
    then Ok {| state := START_RECORD; field := ""; fields := fields_of l |}
    else Raise CsvError.
Proof.
  intros (body & Hpl & Hl) Hq.
  assert (all_chars no_quote body = true
          ∧ (l = body ∨ l = body +:+ String newline "")) as [Hqb Hl'].
  { split; [|done]. destruct Hl as [-> | ->]; [done|].
    rewrite all_chars_app in Hq. by apply andb_prop in Hq as [? _]. }
  destruct (chomp_plain body Hpl) as [Hc1 Hc2].
  assert (chomp l = body) as Hchomp by (by destruct Hl as [-> | ->]).
  unfold fields_of. rewrite Hchomp.
  destruct body as [|c body].
  - destruct Hl as [-> | ->]; reflexivity.
  - assert (process_line parse_reset l
            = process_line (set_state START_FIELD parse_reset) l) as ->.
    { simpl in Hpl. apply andb_prop in Hpl as [Hc _].
      unfold plain in Hc. apply negb_true_iff in Hc.
      destruct Hl as [-> | ->]; rewrite ?append_cons; cbn [process_line];
        unfold parse_process_char; simpl; by rewrite Hc. }
    assert (l = String c body +:+ "" ∨ l = String c body +:+ String newline "")
      as [-> | ->] by (rewrite app_empty_r; done).
    + by rewrite process_from_start by auto.
    + by rewrite process_from_start by auto.
Qed.

Lemma reader_unquoted lines :
  Forall line_ok lines → Forall (λ l, all_chars no_quote l = true) lines →
  reader lines
  = if forallb (λ l, forallb fits (fields_of l)) lines
    then Ok (map fields_of lines)
    else Raise CsvError.
Proof.
  unfold reader. induction lines as [|l lines IH]; intros Hok Hq; [done|].
  apply Forall_cons in Hok as [Hl Hok]. apply Forall_cons in Hq as [Hql Hq].
  cbn [read_records forallb]. rewrite (process_unquoted_line l Hl Hql).
  destruct (forallb fits (fields_of l)); [|done]. simpl.
  rewrite (IH Hok Hq). by destruct (forallb _ lines).
Qed.

(** The characters of the fields are those of the line. *)
Lemma all_chars_chomp P l : all_chars P l = true → all_chars P (chomp l) = true.
Proof.
  induction l as [|c l IH]; [done|]. simpl.
  intros [Hc Hl]%andb_prop. destruct l as [|c' l'].
  - destruct (Ascii.eqb c newline); [done|]. simpl. by rewrite Hc.
  - simpl in *. by rewrite Hc, IH.
Qed.

Lemma all_chars_split P s :
  all_chars P s = true → Forall (λ f, all_chars P f = true) (split tab s).
Proof.
  induction s as [|c s IH]; [by repeat constructor|]. simpl.
  intros [Hc Hs]%andb_prop. specialize (IH Hs).
  destruct (Ascii.eqb c tab); [by constructor|].
  destruct (split tab s) as [|f fs]; [by repeat constructor; simpl; rewrite Hc|].
  apply Forall_cons in IH as [Hf Hfs]. constructor; [|done].
  simpl. by rewrite Hc.
Qed.

Lemma all_chars_fields_of P l :
  all_chars P l = true → Forall (λ f, all_chars P f = true) (fields_of l).
Proof.
  intros H. unfold fields_of. apply (all_chars_chomp P) in H.
  destruct (chomp l) as [|c b] eqn:E; [constructor|].
  by apply all_chars_split.
Qed.

Lemma restval_lookup_None ks col : ∀ d : gmap string (option string),
  col ∉ ks → d !! col = None →
  fold_left (λ d k, <[k := None]> d) ks d !! col = None.
Proof.
  induction ks as [|k ks IH]; intros d Hcol Hd; simpl; [done|].
  apply not_elem_of_cons in Hcol as [Hne Hcol].
  apply IH; [done|]. by rewrite lookup_insert_ne.
Qed.

Lemma zip_lookup_None ks col : ∀ (row : list string) (d : gmap string (option string)),
  col ∉ ks → d !! col = None →
  fold_left (λ d kv, <[kv.1 := Some kv.2]> d) (zip ks row) d !! col = None.
Proof.
  induction ks as [|k ks IH]; intros row d Hcol Hd; simpl; [done|].
  destruct row as [|v row]; [done|]. simpl.
  apply not_elem_of_cons in Hcol as [Hne Hcol].
  apply IH; [done|]. by rewrite lookup_insert_ne.
Qed.

Lemma row_dict_lookup_None fieldnames row col :
  col ∉ fieldnames → row_dict fieldnames row !! col = None.
Proof.
  intros Hcol. unfold row_dict. apply restval_lookup_None.
  - intros Hin. apply Hcol. rewrite list_elem_of_In in Hin |- *.
    rewrite <- (firstn_skipn (List.length row) fieldnames).
    apply in_or_app. by right.
  - by apply zip_lookup_None.
Qed.

End CsvFacts.

(** ** The TSV-column extractor *)

Section Optitype.
Import Text Csv Extract Stated.

(** On a table without double quotes the rows are the lines split at the
    tabs, unless a field is too long for the reader. *)
Lemma parse_optitype_unquoted raw more :
  all_chars no_quote raw = true →
  parse_optitype_result (Some (raw :: more))
  = if fields_fit raw
    then Ok (fold_left optitype_row (split_rows (file_lines (read_text raw))) ∅)
    else Raise CsvError.
Proof.
  intros Hq. unfold parse_optitype_result, DictReader, split_rows, fields_fit.
  rewrite reader_unquoted.
  - destruct (forallb _ _); [|done]. simpl.
    by destruct (map fields_of (file_lines (read_text raw))).
  - apply file_lines_ok.
  - apply all_chars_lines; [|done]. by apply all_chars_read_text.
Qed.


Lemma optitype_cell_trimmed row col :
  optitype_cell row col = map (String.append "HLA-") (trimmed_cell row col).
Proof.
  unfold optitype_cell, trimmed_cell.
  destruct (row !! col) as [[v|]|]; [|done|done].
  destruct (String.eqb_spec v "") as [->|_]; [done|].
  by destruct (strip v =? "").
Qed.

Lemma optitype_gene_trimmed row results gene :
  optitype_gene row results gene =
    match trimmed_values row gene with
    | [] => results
    | vals => <[gene := map (String.append "HLA-") vals]> results
    end.
Proof.
  unfold optitype_gene. cbn [flat_map].
  rewrite !optitype_cell_trimmed, app_nil_r, <- map_app.
  fold (trimmed_values row gene). by destruct (trimmed_values row gene).
Qed.

Lemma optitype_gene_self row results gene :
  (trimmed_values row gene = [] →
   optitype_gene row results gene !! gene = results !! gene)
  ∧ (trimmed_values row gene ≠ [] →
     optitype_gene row results gene !! gene
       = Some (map (String.append "HLA-") (trimmed_values row gene))).
Proof.
  rewrite optitype_gene_trimmed.
  destruct (trimmed_values row gene) as [|v vals]; split; try done.
  intros _. by rewrite lookup_insert_eq.
Qed.

Lemma optitype_gene_other row results gene g :
  g ≠ gene → optitype_gene row results gene !! g = results !! g.
Proof.
  intros Hne. rewrite optitype_gene_trimmed.
  destruct (trimmed_values row gene); [done|].
  by rewrite lookup_insert_ne.
Qed.

Lemma optitype_gene_nonempty row results gene g l :
  (∀ l', results !! g = Some l' → l' ≠ []) →
  optitype_gene row results gene !! g = Some l → l ≠ [].
Proof.
  intros Hres. rewrite optitype_gene_trimmed.
  destruct (trimmed_values row gene) as [|v vals]; [apply Hres|].
  rewrite lookup_insert. case_decide; [|apply Hres].
  by intros [= <-].
Qed.

Lemma optitype_rows_nonempty rows : ∀ results g l,
  (∀ g' l', results !! g' = Some l' → l' ≠ []) →
  fold_left optitype_row rows results !! g = Some l → l ≠ [].
Proof.
  induction rows as [|row rows IH]; intros results g l Hres; cbn [fold_left].
  - apply Hres.
  - apply IH. intros g' l'. unfold optitype_row. cbn [fold_left].
    repeat (apply optitype_gene_nonempty; intros ?). apply Hres.
Qed.

(** C6, as the code has it: a row gives each of the genes A, B and C the
    values of its '1' and '2' columns that are non-empty once trimmed, each
    trimmed and then prefixed, duplicates kept; a gene none of whose two
    columns has such a value is left as it was, so absent after a single
    row; no gene is ever mapped to an empty list. *)
Theorem optitype_row_by_gene row results gene :
  gene ∈ ["A"; "B"; "C"] →
  (trimmed_values row gene = [] →
   optitype_row results row !! gene = results !! gene
   ∧ optitype_row ∅ row !! gene = None)
  ∧ (trimmed_values row gene ≠ [] →
     optitype_row results row !! gene
       = Some (map (String.append "HLA-") (trimmed_values row gene)))
  ∧ (∀ rows g l, fold_left optitype_row rows ∅ !! g = Some l → l ≠ []).
Proof.
  intros Hg.
  assert (optitype_row results row !! gene
            = optitype_gene row results gene !! gene
          ∧ optitype_row ∅ row !! gene
            = optitype_gene row ∅ gene !! gene) as [E E0].
  { unfold optitype_row. cbn [fold_left].
    repeat (apply elem_of_cons in Hg as [->|Hg]).
    - by rewrite !(optitype_gene_other _ _ "C"), !(optitype_gene_other _ _ "B").
    - rewrite !(optitype_gene_other _ _ "C") by done.
      destruct (optitype_gene_self row (optitype_gene row results "A") "B") as [H1 H2].
      destruct (optitype_gene_self row results "B") as [H3 H4].
      destruct (optitype_gene_self row (optitype_gene row ∅ "A") "B") as [H5 H6].
      destruct (optitype_gene_self row ∅ "B") as [H7 H8].
      destruct (trimmed_values row "B") eqn:Et.
      + rewrite H1, H3, H5, H7 by done.
        by rewrite !(optitype_gene_other _ _ "A").
      + by rewrite H2, H4, H6, H8.
    - destruct (optitype_gene_self row
                  (optitype_gene row (optitype_gene row results "A") "B") "C")
        as [H1 H2].
      destruct (optitype_gene_self row results "C") as [H3 H4].
      destruct (optitype_gene_self row
                  (optitype_gene row (optitype_gene row ∅ "A") "B") "C")
        as [H5 H6].
      destruct (optitype_gene_self row ∅ "C") as [H7 H8].
      destruct (trimmed_values row "C") eqn:Et.
      + rewrite H1, H3, H5, H7 by done.
        by rewrite !(optitype_gene_other _ _ "B"), !(optitype_gene_other _ _ "A").
      + by rewrite H2, H4, H6, H8.
    - by apply elem_of_nil in Hg. }
  rewrite E, E0.
  destruct (optitype_gene_self row results gene) as [H1 H2].
  destruct (optitype_gene_self row ∅ gene) as [H3 _].
  split_and!.
  - intros Ht. split; [by apply H1|]. by rewrite H3.
  - done.
  - intros rows g l. apply optitype_rows_nonempty. intros g' l'.
    by rewrite lookup_empty.
Qed.

Example genotype_example :
  parse_optitype_result (Some [genotype_tsv])
    = Ok {[ "A" := ["HLA-02:01"; "HLA-03:01"];
            "C" := ["HLA-07:02"; "HLA-07:02"] ]}
  ∧ DictReader (file_lines (read_text genotype_tsv)) = Ok [genotype_row].
Proof. split; vm_compute; reflexivity. Qed.

Lemma optitype_row_by_gene_witness :
  optitype_row ∅ genotype_row !! "B" = None
  ∧ optitype_row ∅ genotype_row !! "A" = Some ["HLA-02:01"; "HLA-03:01"].
Proof.
  split.
  - apply (optitype_row_by_gene genotype_row ∅ "B").
    + apply elem_of_cons. right. apply elem_of_cons. by left.
    + vm_compute. reflexivity.
  - apply (optitype_row_by_gene genotype_row ∅ "A").
    + apply elem_of_cons. by left.
    + vm_compute. discriminate.
Defined.

(** C6 as stated fails: gene A has a non-empty column, a single space, and
    is absent from the result; as worded it would be mapped to the prefixed
    space. *)
Lemma optitype_drops_blank_value :
  DictReader (file_lines (read_text padded_tsv)) = Ok [padded_row]
  ∧ padded_row !! "A1" = Some (Some " ")
  ∧ stated_optitype_gene padded_row "A" = Some ["HLA- "]
  ∧ parse_optitype_result (Some [padded_tsv])
      = Ok {[ "C" := ["HLA-07:02"; "HLA-07:02"] ]}
  ∧ optitype_row ∅ padded_row !! "A" ≠ stated_optitype_gene padded_row "A".
Proof. split_and!; vm_compute; (reflexivity || discriminate). Qed.

End Optitype.

(** ** Blank input *)

Section Blank.
Import Text Regex Csv Extract Stated.

Lemma match_here_no_digit s :
  run_length is_digit s = 0 → match_here pattern s = None.
Proof. intros H. unfold pattern. cbn [match_here]. by rewrite H. Qed.

Lemma findall_blank s : ∀ skip,
  all_chars is_space s = true → findall_from pattern skip s = [].
Proof.
  induction s as [|c s IH]; intros skip Hs; [done|].
  simpl in Hs. apply andb_prop in Hs as [Hc Hs].
  cbn [findall_from]. destruct skip as [|skip]; [|by apply IH].
  rewrite match_here_no_digit; [by apply IH|].
  simpl. by rewrite (space_not_digit c Hc).
Qed.

Lemma matches_blank raw : whitespace_only raw → matches (read_text raw) = [].
Proof.
  intros H. unfold matches, findall.
  by rewrite findall_blank by (by apply all_space_read_text).
Qed.

Lemma estimation_blank lines : ∀ results,
  Forall (λ l, strip l = "") lines →
  fold_left estimation_line lines results = results.
Proof.
  induction lines as [|l lines IH]; intros results Hl; [done|].
  apply Forall_cons in Hl as [E Hl]. cbn [fold_left].
  unfold estimation_line at 2. rewrite E. simpl. by apply IH.
Qed.

Lemma hlala_blank lines : ∀ results,
  Forall (λ l, strip l = "") lines →
  fold_left hlala_line lines results = results.
Proof.
  induction lines as [|l lines IH]; intros results Hl; [done|].
  apply Forall_cons in Hl as [E Hl]. cbn [fold_left].
  unfold hlala_line at 2. rewrite E. simpl. by apply IH.
Qed.

Lemma blank_header_has_no_column fieldnames col :
  Forall (λ f, all_chars is_space f = true) fieldnames →
  all_chars is_space col = false → col ∉ fieldnames.
Proof.
  intros Hf Hcol Hin. rewrite Forall_forall in Hf.
  specialize (Hf _ Hin). congruence.
Qed.

Lemma optitype_row_blank fieldnames r results :
  Forall (λ f, all_chars is_space f = true) fieldnames →
  optitype_row results (row_dict fieldnames r) = results.
Proof.
  intros Hf.
  assert (∀ gene i, gene ∈ ["A"; "B"; "C"] → i ∈ ["1"; "2"] →
            optitype_cell (row_dict fieldnames r) (gene +:+ i) = []) as Hcell.
  { intros gene i Hg Hi. unfold optitype_cell.
    rewrite row_dict_lookup_None; [done|].
    apply blank_header_has_no_column; [done|].
    repeat (apply elem_of_cons in Hg as [->|Hg]);
      repeat (apply elem_of_cons in Hi as [->|Hi]);
      try reflexivity; by apply elem_of_nil in Hg || by apply elem_of_nil in Hi. }
  unfold optitype_row. cbn [fold_left]. unfold optitype_gene. cbn [flat_map].
  rewrite !Hcell; [done | ..];
    repeat first [ by (apply elem_of_cons; left) | apply elem_of_cons; right ].
Qed.

Lemma space_not_quote c : is_space c = true → no_quote c = true.
Proof. destruct c as [[] [] [] [] [] [] [] []]; vm_compute; congruence. Qed.

Lemma all_space_no_quote s :
  all_chars is_space s = true → all_chars no_quote s = true.
Proof.
  induction s as [|c s IH]; simpl; [done|].
  intros [Hc Hs]%andb_prop. by rewrite (space_not_quote c Hc), IH.
Qed.

Lemma split_rows_blank lines results :
  Forall (λ l, all_chars is_space l = true) lines →
  fold_left optitype_row (split_rows lines) results = results.
Proof.
  intros Hl. unfold split_rows. destruct lines as [|l0 lines]; [done|].
  apply Forall_cons in Hl as [Hl0 _]. cbn [map].
  pose proof (all_chars_fields_of is_space l0 Hl0) as Hf.
  revert results.
  induction (List.filter _ (map fields_of lines)) as [|r rs IH]; intros results;
    [done|].
  cbn [map fold_left]. by rewrite optitype_row_blank.
Qed.

(** On blank text the TSV-column extractor finds no column it knows; what
    is left to go wrong is a field too long for the reader. *)
Lemma optitype_blank raw more :
  whitespace_only raw →
  parse_optitype_result (Some (raw :: more))
  = if fields_fit raw then Ok ∅ else Raise CsvError.
Proof.
  intros H. rewrite parse_optitype_unquoted by (by apply all_space_no_quote).
  destruct (fields_fit raw); [|done]. f_equal. apply split_rows_blank.
  apply all_space_lines; [by apply all_space_read_text | done].
Qed.

(** C8, as the code has it: on empty or whitespace-only text the
    ranked-report, delimited-tuple and fixed-column extractors return the
    empty result and raise nothing; the TSV-column extractor returns the
    empty result when every tab-separated field of every line has at most
    131072 characters, and raises csv.Error otherwise. *)
Theorem extractors_on_blank_text raw more :
  whitespace_only raw →
  parse_report_file raw = Ok ∅
  ∧ parse_hisat_report raw = Ok ∅
  ∧ parse_estimation_result raw = ∅
  ∧ parse_hlala_result (Some raw) = ∅
  ∧ parse_optitype_result (Some (raw :: more))
    = if fields_fit raw then Ok ∅ else Raise CsvError.
Proof.
  intros H. split_and!.
  - unfold parse_report_file. by rewrite matches_blank.
  - unfold parse_hisat_report. by rewrite matches_blank.
  - unfold parse_estimation_result. apply estimation_blank.
    by apply all_space_file_lines.
  - unfold parse_hlala_result. apply hlala_blank.
    pose proof (all_space_file_lines raw H) as Hl.
    destruct (file_lines (read_text raw)); [done|].
    by apply Forall_cons in Hl as [_ Hl].
  - by apply optitype_blank.
Qed.

Lemma extractors_on_blank_text_witness :
  whitespace_only ("  " +:+ nl +:+ tb +:+ " " +:+ nl)
  ∧ parse_optitype_result (Some ["  " +:+ nl +:+ tb +:+ " " +:+ nl]) = Ok ∅.
Proof.
  split; [reflexivity|].
  exact (proj2 (proj2 (proj2 (proj2
           (extractors_on_blank_text ("  " +:+ nl +:+ tb +:+ " " +:+ nl) []
              eq_refl))))).
Defined.

Lemma spaces_blank n : all_chars is_space (spaces n) = true.
Proof. induction n as [|n IH]; [done|]. simpl. exact IH. Qed.

Lemma spaces_plain n : all_chars plain (spaces n) = true.
Proof. induction n as [|n IH]; [done|]. simpl. exact IH. Qed.

Lemma spaces_length n : String.length (spaces n) = n.
Proof. induction n as [|n IH]; [done|]. simpl. by rewrite IH. Qed.

Lemma spaces_split n : split tab (spaces (S n)) = [spaces (S n)].
Proof.
  induction n as [|n IH]; [done|].
  change (spaces (S (S n))) with (String " " (spaces (S n))).
  cbn [split]. rewrite IH. reflexivity.
Qed.

Lemma long_line_unfit n :
  (field_limit < N.of_nat n)%N → fields_fit (spaces n +:+ nl) = false.
Proof.
  intros Hn. unfold fields_fit, file_lines, nl.
  rewrite read_text_plain by apply spaces_plain.
  change (read_text (String newline "")) with (String newline "").
  rewrite lines_from_plain by apply spaces_plain.
  change (lines_from None "") with (@nil string).
  change (default "" None +:+ spaces n +:+ String newline "")
    with (spaces n +:+ String newline "").
  cbn [forallb]. unfold fields_of.
  rewrite (proj2 (chomp_plain (spaces n) (spaces_plain n))).
  destruct n as [|n]; [done|].
  change (spaces (S n)) with (String " " (spaces n)) at 1.
  cbv iota. change (String " " (spaces n)) with (spaces (S n)).
  rewrite spaces_split. cbn [forallb]. unfold fits.
  rewrite spaces_length, !andb_true_r. apply N.leb_gt. exact Hn.
Qed.

(** C8 as stated fails for the TSV-column extractor: a line of 131073
    blanks is whitespace-only text, and reading it raises csv.Error. *)
Lemma long_blank_line_raises :
  whitespace_only long_blank_line
  ∧ parse_optitype_result (Some [long_blank_line]) = Raise CsvError.
Proof.
  assert (whitespace_only long_blank_line) as Hw.
  { unfold whitespace_only, long_blank_line.
    rewrite all_chars_app, spaces_blank. reflexivity. }
  split; [exact Hw|].
  rewrite (optitype_blank long_blank_line [] Hw).
  unfold long_blank_line. rewrite long_line_unfit; [reflexivity|].
  rewrite N2Nat.id. unfold field_limit. lia.
Qed.

End Blank.

(** ** Runs *)

Section Runs.
Import Text Extract Stated.








End Runs.

(** ** Aggregation *)

Section Aggregation.
Import Text Extract Stated.






End Aggregation.

Section AggregationExamples.
Import Text Extract Stated.




End AggregationExamples.

(** ** Exit status *)

Section ExitStatus.
Import Text Extract Stated.








End ExitStatus.

(** * Further properties of the code *)

(** ** Loops that may raise *)

Section Loops.

Lemma for_each_inv {A St} (body : St → A → result St) (I : St → Prop) xs :
  (∀ st x st', x ∈ xs → I st → body st x = Ok st' → I st') →
  ∀ st st', I st → for_each body xs st = Ok st' → I st'.
Proof.
  induction xs as [|x xs IH]; intros Hbody st st' Hst; cbn [for_each].
  - by intros [= <-].
  - destruct (body st x) as [st1|e] eqn:E; [|done]. simpl. apply IH.
    + intros st0 y st0' Hy. apply Hbody. apply elem_of_cons. by right.
    + eapply Hbody; [|done|done]. apply elem_of_cons. by left.
Qed.

End Loops.

(** ** Tokens of the report pattern *)

Section Tokens.
Import Text Num Regex Extract Stated Shape.

Lemma take_run cls s : ∀ k,
  (k ≤ run_length cls s)%nat → all_chars cls (take k s) = true.
Proof.
  induction s as [|c s IH]; intros [|k] Hk; simpl in *; try done.
  destruct (cls c); [|lia]. apply IH. lia.
Qed.

Lemma take_nonempty cls s k :
  (S k ≤ run_length cls s)%nat → take (S k) s ≠ "".
Proof. destruct s as [|c s]; simpl; [lia | done]. Qed.

Lemma match_here_classes p : ∀ s caps rest,
  match_here p s = Some (caps, rest) → Forall2 (λ cap cls, token cls cap) caps (classes p).
Proof.
  induction p as [|[l|cls] p IH]; intros s; cbn [match_here classes].
  - intros caps rest [= <- _]. constructor.
  - intros caps rest. destruct (strip_prefix l s); [apply IH | done].
  - assert (∀ k, (k ≤ run_length cls s)%nat → ∀ caps rest,
      (fix give_back (k : nat) : option (list string * string) :=
         match k with
         | 0 => None
         | S k' =>
             match match_here p (drop k s) with
             | Some (caps, rest) => Some (take k s :: caps, rest)
             | None => give_back k'
             end
         end) k = Some (caps, rest) →
      Forall2 (λ cap cls, token cls cap) caps (cls :: classes p)) as Hk.
    { induction k as [|k IHk]; intros Hle caps rest; [done|].
      destruct (match_here p (drop (S k) s)) as [[caps' rest']|] eqn:E.
      - intros [= <- _]. constructor; [|by eapply IH].
        split; [exact (take_nonempty cls s k Hle) | exact (take_run cls s (S k) Hle)].
      - apply IHk. lia. }
    intros caps rest. by apply Hk.
Qed.

Lemma findall_from_classes p s : ∀ skip,
  Forall (λ caps, Forall2 (λ cap cls, token cls cap) caps (classes p))
         (findall_from p skip s).
Proof.
  induction s as [|c s IH]; intros skip; cbn [findall_from]; [constructor|].
  destruct skip as [|skip]; [|apply IH].
  destruct (match_here p (String c s)) as [[caps rest]|] eqn:E; [|apply IH].
  constructor; [by eapply match_here_classes | apply IH].
Qed.

Lemma matches_tokens content :
  Forall (λ m, token is_digit (m_rank m) ∧ token gene_char (m_gene m)
               ∧ token allele_char (m_allele m)
               ∧ token abundance_char (m_abundance m))
         (matches content).
Proof.
  unfold matches, findall.
  pose proof (findall_from_classes pattern content 0) as H.
  induction H as [|caps l Hc _ IH]; [constructor|].
  unfold pattern in Hc. cbn [classes] in Hc.
  apply Forall2_cons_inv_r in Hc as (r & caps1 & Hr & Hc & ->).
  apply Forall2_cons_inv_r in Hc as (g & caps2 & Hg & Hc & ->).
  apply Forall2_cons_inv_r in Hc as (a & caps3 & Ha & Hc & ->).
  apply Forall2_cons_inv_r in Hc as (ab & caps4 & Hab & Hc & ->).
  apply Forall2_nil_inv_r in Hc as ->.
  simpl. constructor; [done | exact IH].
Qed.

(** The keys and calls a loop over matches can produce. *)
Lemma step_keys (keep : N → bool) (name : ranked_match → string)
    (step : gmap string (list allele_info) → ranked_match
            → result (gmap string (list allele_info))) ms :
  (∀ results m, step results m =
     let results := ensure_key (m_gene m) results in
     r ← int (m_rank m);
     if keep r then
       ab ← float (m_abundance m);
       Ok (append_at (m_gene m)
             {| rank := r; allele := name m; abundance := ab |}
             results)
     else Ok results) →
  ∀ res, for_each step ms ∅ = Ok res →
  ∀ g calls, res !! g = Some calls →
    (∃ m, m ∈ ms ∧ m_gene m = g)
    ∧ ∀ c, c ∈ calls →
        ∃ m, m ∈ ms ∧ m_gene m = g ∧ keep (rank c) = true
             ∧ int (m_rank m) = Ok (rank c)
             ∧ allele c = name m ∧ float (m_abundance m) = Ok (abundance c).
Proof.
  intros Hstep res Hres.
  apply (for_each_inv step
    (λ r, ∀ g calls, r !! g = Some calls →
       (∃ m, m ∈ ms ∧ m_gene m = g)
       ∧ ∀ c, c ∈ calls →
           ∃ m, m ∈ ms ∧ m_gene m = g ∧ keep (rank c) = true
                ∧ int (m_rank m) = Ok (rank c)
                ∧ allele c = name m ∧ float (m_abundance m) = Ok (abundance c))
    ms) with (st := ∅) (st' := res); [|by intros g calls; rewrite lookup_empty|done].
  intros st m st' Hm Hst. rewrite Hstep. cbv zeta.
  destruct (int (m_rank m)) as [r|e] eqn:Er; [|done]. simpl.
  destruct (keep r) eqn:Ek.
  - destruct (float (m_abundance m)) as [q|e] eqn:Eq; [|done]. simpl.
    intros [= <-] g calls. rewrite append_at_lookup, ensure_key_lookup.
    destruct (decide (m_gene m = g)) as [<-|Hne]; [|apply Hst].
    simpl. intros [= <-]. split; [by exists m|].
    intros c [Hc|Hc%list_elem_of_singleton]%elem_of_app.
    + destruct (st !! m_gene m) as [l|] eqn:El; [|by apply elem_of_nil in Hc].
      by apply (Hst _ _ El).
    + subst c. by exists m.
  - intros [= <-] g calls. rewrite ensure_key_lookup.
    destruct (decide (m_gene m = g)) as [<-|Hne]; [|apply Hst].
    intros [= <-]. split; [by exists m|].
    destruct (st !! m_gene m) as [l|] eqn:El; [|intros c Hc; by apply elem_of_nil in Hc].
    by apply (Hst _ _ El).
Qed.

(** X1: whatever the report, every gene key of [parse_hisat_report] is a
    non-empty token of capitals and digits, also a key whose list is
    empty; every call has rank at most 2 and an allele name made of the
    prefix HLA-, the gene it is filed under, a star, and a non-empty allele
    token without whitespace. *)
Theorem hisat_calls_shape raw res g calls :
  parse_hisat_report raw = Ok res → res !! g = Some calls →
  token gene_char g
  ∧ ∀ c, c ∈ calls →
      (rank c <= 2)%N
      ∧ ∃ a, allele c = "HLA-" +:+ g +:+ "*" +:+ a ∧ token allele_char a.
Proof.
  intros Hres Hg.
  destruct (step_keys (λ r, (r <=? 2)%N)
              (λ m, "HLA-" +:+ m_gene m +:+ "*" +:+ m_allele m)
              hisat_step (matches (read_text raw)) hisat_step_eq res Hres g calls Hg)
    as [(m0 & Hm0 & Hg0) Hcalls].
  pose proof (matches_tokens (read_text raw)) as Ht.
  rewrite Forall_forall in Ht. split.
  - rewrite <- Hg0. by destruct (Ht m0 Hm0) as (_ & ? & _).
  - intros c Hc. destruct (Hcalls c Hc) as (m & Hm & <- & Hk & Hr & Ha & _).
    destruct (Ht m Hm) as (_ & Htg & Hta & _).
    split; [by apply N.leb_le|]. by exists (m_allele m).
Qed.

(** X2: the keys of [parse_report_file] are non-empty tokens of capitals
    and digits, and each call stored under a key comes from a match of that
    gene: its allele is a non-empty token without whitespace, kept without
    any prefix. *)
Theorem report_calls_shape raw res g calls :
  parse_report_file raw = Ok res → res !! g = Some calls →
  token gene_char g
  ∧ calls ≠ []
  ∧ ∀ c, c ∈ calls →
      token allele_char (allele c)
      ∧ ∃ m, m ∈ matches (read_text raw) ∧ m_gene m = g
             ∧ int (m_rank m) = Ok (rank c) ∧ allele c = m_allele m.
Proof.
  intros Hres Hg.
  assert (calls ≠ []) as Hne.
  { revert g calls Hg.
    apply (for_each_inv report_step
      (λ r, ∀ g calls, r !! g = Some calls → calls ≠ [])
      (matches (read_text raw))) with (st := ∅) (st' := res);
      [|by intros g calls; rewrite lookup_empty|done].
    intros st m st' _ Hst. unfold report_step. cbv zeta.
    destruct (int (m_rank m)) as [r|e]; [|done]. simpl.
    destruct (float (m_abundance m)) as [q|e]; [|done]. simpl.
    intros [= <-] g calls. rewrite append_at_lookup, ensure_key_lookup.
    destruct (decide (m_gene m = g)) as [<-|Hneq]; [|apply Hst].
    simpl. intros [= <-]. by destruct (default [] (st !! m_gene m)). }
  destruct (step_keys (λ _, true) m_allele report_step (matches (read_text raw))
              ltac:(done) res Hres g calls Hg) as [(m0 & Hm0 & Hg0) Hcalls].
  pose proof (matches_tokens (read_text raw)) as Ht.
  rewrite Forall_forall in Ht. split_and!; [|done|].
  - rewrite <- Hg0. by destruct (Ht m0 Hm0) as (_ & ? & _).
  - intros c Hc. destruct (Hcalls c Hc) as (m & Hm & Hgm & _ & Hr & Ha & _).
    split; [|by exists m]. rewrite Ha. by destruct (Ht m Hm) as (_ & _ & ? & _).
Qed.

End Tokens.

Section TokensExamples.
Import Text Num Regex Extract Stated Shape.

Lemma hisat_calls_shape_witness :
  token gene_char "A"
  ∧ ∀ c, c ∈ [ {| rank := 2; allele := "HLA-A*02:01"; abundance := 89 # 2 |};
               {| rank := 1; allele := "HLA-A*01:01"; abundance := 111 # 2 |} ] →
      (rank c <= 2)%N
      ∧ ∃ a, allele c = "HLA-" +:+ "A" +:+ "*" +:+ a ∧ token allele_char a.
Proof.
  eapply (hisat_calls_shape unordered_report _ "A" _).
  - vm_compute. reflexivity.
  - vm_compute. reflexivity.
Defined.

Lemma report_calls_shape_witness :
  token gene_char "A"
  ∧ [ {| rank := 3; allele := "01:01"; abundance := 5 |} ] ≠ [].
Proof.
  destruct (report_calls_shape rank3_report _ "A"
              [ {| rank := 3; allele := "01:01"; abundance := 5 |} ]
              rank3_report_file) as (H1 & H2 & _).
  - vm_compute. reflexivity.
  - by split.
Defined.

End TokensExamples.

(** ** When the ranked-report extractors raise *)

Section Raising.
Import Text Num Regex Extract Stated Shape.

Lemma float_total s : (∃ q, float s = Ok q) ∨ float s = Raise ValueError.
Proof.
  unfold float. destruct (drop (run_length is_digit s) s) as [|c fp].
  - destruct (_ =? 0)%nat; [by right | left; by eexists].
  - destruct (_ && _); [left; by eexists | by right].
Qed.

(** [int] raises on the strings that are too long, and on no other. *)
Lemma int_cases m :
  ((∃ r, int (m_rank m) = Ok r) ∧ ¬ overlong m)
  ∨ (int (m_rank m) = Raise ValueError ∧ overlong m).
Proof.
  unfold int, overlong.
  destruct (int_max_str_digits <? N.of_nat (String.length (m_rank m)))%N eqn:E.
  - right. split; [done|]. by apply N.ltb_lt.
  - left. split; [by eexists|]. by apply N.ltb_ge, N.le_ngt in E.
Qed.

Context (keep : N → bool) (name : ranked_match → string)
        (step : gmap string (list allele_info) → ranked_match
                → result (gmap string (list allele_info))).
Hypothesis step_eq : ∀ results m,
  step results m =
    let results := ensure_key (m_gene m) results in
    r ← int (m_rank m);
    if keep r then
      ab ← float (m_abundance m);
      Ok (append_at (m_gene m)
            {| rank := r; allele := name m; abundance := ab |}
            results)
    else Ok results.

Lemma loop_raises ms : ∀ init,
  (for_each step ms init = Raise ValueError
   ↔ Exists (λ m, overlong m ∨ (ranked keep m = true ∧ malformed m)) ms)
  ∧ (∀ e, for_each step ms init = Raise e → e = ValueError).
Proof.
  induction ms as [|m ms IH]; intros init; cbn [for_each].
  - split; [|done]. split; [done|]. by intros ?%Exists_nil.
  - rewrite step_eq. cbv zeta. rewrite Exists_cons. unfold malformed at 1.
    destruct (int_cases m) as [[[r Hr] Hno]|[Hr Hov]].
    + assert (ranked keep m = keep r) as -> by (unfold ranked; by rewrite Hr).
      rewrite Hr. simpl. destruct (keep r) eqn:Ek.
      * destruct (float_total (m_abundance m)) as [[q Hq]|Hq]; rewrite Hq; simpl.
        -- destruct (IH (append_at (m_gene m)
                           {| rank := r; allele := name m; abundance := q |}
                           (ensure_key (m_gene m) init))) as [IH1 IH2].
           split; [|done]. rewrite IH1. split; [by right|].
           by intros [[?|[_ ?]]|?].
        -- split; [|by intros e [= <-]]. split; [by left; right | done].
      * destruct (IH (ensure_key (m_gene m) init)) as [IH1 IH2].
        split; [|done]. rewrite IH1. split; [by right|].
        by intros [[?|[? _]]|?].
    + rewrite Hr. simpl. split; [|by intros e [= <-]].
      split; [by left; left | done].
Qed.

End Raising.

Section RaisingReports.
Import Text Num Regex Extract Stated Shape.

(** X3: [parse_report_file] raises exactly when some match of the text has
    a rank token of more than 4300 digits or an abundance token that is no
    number; [parse_hisat_report] exactly when some match has such a rank
    token, or has rank at most 2 and such an abundance token, since it
    converts the abundance of the matches it keeps only; the exception is
    always ValueError, and the second raises on no text the first
    accepts. *)
Theorem ranked_extractors_raise raw :
  (parse_report_file raw = Raise ValueError
   ↔ Exists (λ m, overlong m ∨ malformed m) (matches (read_text raw)))
  ∧ (parse_hisat_report raw = Raise ValueError
     ↔ Exists (λ m, overlong m ∨ (top2 m = true ∧ malformed m))
              (matches (read_text raw)))
  ∧ ((∃ res, parse_report_file raw = Ok res)
     ∨ parse_report_file raw = Raise ValueError)
  ∧ ((∃ res, parse_hisat_report raw = Ok res)
     ∨ (parse_hisat_report raw = Raise ValueError
        ∧ parse_report_file raw = Raise ValueError)).
Proof.
  destruct (loop_raises (λ _, true) m_allele report_step ltac:(done)
              (matches (read_text raw)) ∅) as [Hr1 Hr2].
  destruct (loop_raises (λ r, (r <=? 2)%N)
              (λ m, "HLA-" +:+ m_gene m +:+ "*" +:+ m_allele m)
              hisat_step hisat_step_eq (matches (read_text raw)) ∅) as [Hh1 Hh2].
  assert (parse_report_file raw = Raise ValueError
          ↔ Exists (λ m, overlong m ∨ malformed m) (matches (read_text raw)))
    as Hrep.
  { unfold parse_report_file. cbv zeta. rewrite Hr1.
    apply Exists_proper; [|done]. intros m. split.
    - intros [?|[_ ?]]; [by left | by right].
    - intros [?|Hm]; [by left|].
      destruct (int_cases m) as [[[r Hr] _]|[_ ?]]; [|by left].
      right. split; [|done]. unfold ranked. by rewrite Hr. }
  split_and!; [done | done | |].
  - destruct (parse_report_file raw) as [res|e] eqn:E; [left; by eexists|].
    right. by rewrite (Hr2 e E).
  - destruct (parse_hisat_report raw) as [res'|e] eqn:E; [left; by eexists|].
    right. pose proof (Hh2 e E) as ->. split; [done|].
    apply Hrep. apply Hh1 in E.
    eapply Exists_impl; [exact E|]. intros m [?|[_ ?]]; [by left | by right].
Qed.

Example malformed_low_rank :
  parse_report_file "3 ranked A*01 (abundance: 1.2.3%)" = Raise ValueError
  ∧ parse_hisat_report "3 ranked A*01 (abundance: 1.2.3%)" = Ok {[ "A" := [] ]}.
Proof. split; vm_compute; reflexivity. Qed.

End RaisingReports.

(** ** The fixed-column extractor *)

Section TextMore.
Import Text.

Lemma all_chars_lstrip P s :
  all_chars P s = true → all_chars P (lstrip s) = true.
Proof.
  induction s as [|c s IH]; simpl; [done|].
  intros [Hc Hs]%andb_prop. destruct (is_space c); [by apply IH|].
  simpl. by rewrite Hc, Hs.
Qed.

Lemma all_chars_rstrip P s :
  all_chars P s = true → all_chars P (rstrip s) = true.
Proof.
  induction s as [|c s IH]; simpl; [done|].
  intros [Hc Hs]%andb_prop. specialize (IH Hs).
  destruct (rstrip s) as [|c' r].
  - destruct (is_space c); simpl; [done|]. by rewrite Hc.
  - simpl in *. by rewrite Hc, IH.
Qed.

Lemma all_chars_strip P s :
  all_chars P s = true → all_chars P (strip s) = true.
Proof. intros H. by apply all_chars_rstrip, all_chars_lstrip. Qed.

Lemma remove_char_absent x s :
  all_chars (λ c, negb (Ascii.eqb c x)) (remove_char x s) = true.
Proof.
  induction s as [|c s IH]; simpl; [done|].
  destruct (Ascii.eqb c x) eqn:E; [done|]. simpl. by rewrite E, IH.
Qed.

Lemma startswith_append p s : startswith p (p +:+ s) = true.
Proof.
  unfold startswith. induction p as [|c p IH]; [by destruct s|].
  rewrite append_cons. simpl. by destruct (ascii_dec c c).
Qed.

Lemma fold_left_inv {A St} (f : St → A → St) (I : St → Prop) xs :
  (∀ st x, x ∈ xs → I st → I (f st x)) → ∀ st, I st → I (fold_left f xs st).
Proof.
  induction xs as [|x xs IH]; intros Hf st Hst; cbn [fold_left]; [done|].
  apply IH.
  - intros st' y Hy. apply Hf. apply elem_of_cons. by right.
  - apply Hf; [|done]. apply elem_of_cons. by left.
Qed.

End TextMore.

Section Hlala.
Import Text Extract Stated Shape.

Lemma hlala_line_shape results line :
  (∀ g calls, results !! g = Some calls →
     calls ≠ [] ∧ ∀ a, a ∈ calls → startswith "HLA-" a = true
                                   ∧ all_chars not_G a = true) →
  ∀ g calls, hlala_line results line !! g = Some calls →
    calls ≠ [] ∧ ∀ a, a ∈ calls → startswith "HLA-" a = true
                                  ∧ all_chars not_G a = true.
Proof.
  intros Hres g calls. unfold hlala_line.
  destruct (strip line =? ""); [apply Hres|].
  destruct (split tab (strip line)) as [|p0 [|p1 [|p2 rest]]]; try apply Hres.
  cbv zeta. rewrite append_at_lookup, ensure_key_lookup.
  destruct (decide (strip p0 = g)) as [<-|Hne]; [|apply Hres].
  simpl. intros [= <-]. split; [by destruct (default [] _)|].
  intros a [Ha|Ha%list_elem_of_singleton]%elem_of_app.
  - destruct (results !! strip p0) as [l|] eqn:El; [|by apply elem_of_nil in Ha].
    by apply (Hres _ _ El).
  - subst a.
    assert (all_chars not_G (strip (remove_char "G" (strip p2))) = true) as HG
      by apply all_chars_strip, remove_char_absent.
    destruct (startswith "HLA-" (strip (remove_char "G" (strip p2)))) eqn:Es; simpl.
    + done.
    + split; [apply startswith_append|].
      rewrite all_chars_app. by rewrite HG.
Qed.

(** X4: in the result of [parse_hlala_result] no gene has an empty list,
    every allele starts with HLA-, and no allele holds a capital G
    anywhere. *)
Theorem hlala_calls_shape bestguess_file g calls :
  parse_hlala_result bestguess_file !! g = Some calls →
  calls ≠ []
  ∧ ∀ a, a ∈ calls → startswith "HLA-" a = true ∧ all_chars not_G a = true.
Proof.
  unfold parse_hlala_result. destruct bestguess_file as [raw|]; [|done].
  cbv zeta. revert g calls.
  apply (fold_left_inv hlala_line
    (λ r, ∀ g calls, r !! g = Some calls →
       calls ≠ [] ∧ ∀ a, a ∈ calls → startswith "HLA-" a = true
                                     ∧ all_chars not_G a = true)).
  - intros st l _ Hst. by apply hlala_line_shape.
  - intros g calls. by rewrite lookup_empty.
Qed.

Lemma hlala_calls_shape_witness :
  ["HLA-*01:01:01"] ≠ []
  ∧ ∀ a, a ∈ ["HLA-*01:01:01"] → startswith "HLA-" a = true
                                  ∧ all_chars not_G a = true.
Proof.
  apply (hlala_calls_shape (Some bestguess_sample) "G").
  vm_compute. reflexivity.
Defined.

(** X5: [parse_hlala_result] passes over the first line whatever it holds:
    the result is the one the data lines give, read from the empty
    mapping. *)
Theorem hlala_skips_header header body :
  all_chars plain header = true →
  parse_hlala_result (Some (with_header header body))
  = fold_left hlala_line (file_lines (read_text body)) ∅.
Proof.
  intros Hh. unfold parse_hlala_result, with_header, file_lines. cbv zeta.
  rewrite read_text_plain by done.
  change (read_text (String newline "" +:+ body))
    with (String newline (read_text body)).
  change (header +:+ String newline (read_text body))
    with (header +:+ String newline (read_text body)).
  by rewrite lines_from_plain.
Qed.

Lemma hlala_skips_header_witness :
  parse_hlala_result (Some (with_header "G*01:01:01G	1	G*01:01:01G" "A	1	A*02:01"))
  = {[ "A" := ["HLA-A*02:01"] ]}.
Proof.
  rewrite (hlala_skips_header "G*01:01:01G	1	G*01:01:01G" "A	1	A*02:01");
    [|reflexivity].
  vm_compute. reflexivity.
Defined.

End Hlala.

(** ** More on the TSV-column extractor *)

Section OptitypeMore.
Import Text Csv Extract Stated Shape.






Lemma optitype_row_lookup row results gene :
  gene ∈ ["A"; "B"; "C"] →
  optitype_row results row !! gene = optitype_gene row results gene !! gene.
Proof.
  intros Hg. unfold optitype_row. cbn [fold_left].
  repeat (apply elem_of_cons in Hg as [->|Hg]).
  - by rewrite !(optitype_gene_other _ _ "C"), !(optitype_gene_other _ _ "B").
  - rewrite !(optitype_gene_other _ _ "C") by done.
    rewrite !optitype_gene_trimmed.
    destruct (trimmed_values row "B"), (trimmed_values row "A");
      by rewrite ?lookup_insert_eq, ?lookup_insert_ne.
  - rewrite !optitype_gene_trimmed.
    destruct (trimmed_values row "C"), (trimmed_values row "B"),
      (trimmed_values row "A");
      by rewrite ?lookup_insert_eq, ?lookup_insert_ne.
  - by apply elem_of_nil in Hg.
Qed.

Lemma optitype_rows_without rows gene : ∀ results,
  gene ∈ ["A"; "B"; "C"] →
  Forall (λ r, trimmed_values r gene = []) rows →
  fold_left optitype_row rows results !! gene = results !! gene.
Proof.
  induction rows as [|row rows IH]; intros results Hg Hrows; [done|].
  apply Forall_cons in Hrows as [Hr Hrows]. cbn [fold_left].
  rewrite IH, optitype_row_lookup by done.
  by apply optitype_gene_self.
Qed.

(** X7: over the rows of a genotype table, a gene keeps the values of the
    last row that has any for it; rows without values for the gene, before
    or after, change nothing. *)
Theorem optitype_last_row_with_values before row after gene :
  gene ∈ ["A"; "B"; "C"] →
  trimmed_values row gene ≠ [] →
  Forall (λ r, trimmed_values r gene = []) after →
  fold_left optitype_row (before ++ row :: after) ∅ !! gene
  = Some (map (String.append "HLA-") (trimmed_values row gene)).
Proof.
  intros Hg Hrow Hafter. rewrite fold_left_app. cbn [fold_left].
  rewrite optitype_rows_without, optitype_row_lookup by done.
  by apply optitype_gene_self.
Qed.

Lemma optitype_last_row_with_values_witness :
  fold_left optitype_row ([padded_row] ++ genotype_row :: [padded_row]) ∅ !! "A"
  = Some ["HLA-02:01"; "HLA-03:01"].
Proof.
  apply (optitype_last_row_with_values [padded_row] genotype_row [padded_row] "A").
  - apply elem_of_cons. by left.
  - vm_compute. discriminate.
  - constructor; [|constructor]. vm_compute. reflexivity.
Defined.

End OptitypeMore.

(** ** More on the delimited-tuple extractor *)

Section EstimationMore.
Import Text Extract Stated Shape.

Lemma estimation_lines_from_line lines : ∀ init,
  (∀ g calls, init !! g = Some calls →
     ∃ line p0 p1 p2 rest, line ∈ lines
       ∧ split tab (strip line) = p0 :: p1 :: p2 :: rest ∧ strip p0 = g
       ∧ calls = List.filter is_call [strip p1; strip p2]) →
  ∀ g calls, fold_left estimation_line lines init !! g = Some calls →
     ∃ line p0 p1 p2 rest, line ∈ lines
       ∧ split tab (strip line) = p0 :: p1 :: p2 :: rest ∧ strip p0 = g
       ∧ calls = List.filter is_call [strip p1; strip p2].
Proof.
  intros init Hinit.
  apply (fold_left_inv estimation_line
    (λ r, ∀ g calls, r !! g = Some calls →
       ∃ line p0 p1 p2 rest, line ∈ lines
         ∧ split tab (strip line) = p0 :: p1 :: p2 :: rest ∧ strip p0 = g
         ∧ calls = List.filter is_call [strip p1; strip p2])); [|done].
  intros st line Hline Hst g calls.
  destruct (estimation_line_cases st line) as [->|(p0 & p1 & p2 & rest & Hs)];
    [apply Hst|].
  rewrite (estimation_line_cols _ _ _ _ _ _ Hs), lookup_insert.
  case_decide as Hd; [|apply Hst].
  intros Heq. exists line, p0, p1, p2, rest. split_and!; [done..|congruence].
Qed.

Lemma estimation_lines_keep lines g : ∀ init,
  is_Some (init !! g) → is_Some (fold_left estimation_line lines init !! g).
Proof.
  intros init Hinit.
  apply (fold_left_inv estimation_line (λ r, is_Some (r !! g))); [|done].
  intros st line _ Hst.
  destruct (estimation_line_cases st line) as [->|(p0 & p1 & p2 & rest & Hs)];
    [done|].
  rewrite (estimation_line_cols _ _ _ _ _ _ Hs), lookup_insert.
  by case_decide.
Qed.

(** X8: every sequence of [parse_estimation_result] comes from one line
    with at least three columns that names the gene in column 0: it is the
    calls among the columns 1 and 2 of that line, so it has at most two
    entries and is never merged from several lines. *)
Theorem estimation_calls_of_one_line raw gene calls :
  parse_estimation_result raw !! gene = Some calls →
  (List.length calls ≤ 2)%nat
  ∧ ∃ line p0 p1 p2 rest, line ∈ file_lines (read_text raw)
      ∧ split tab (strip line) = p0 :: p1 :: p2 :: rest ∧ strip p0 = gene
      ∧ calls = List.filter is_call [strip p1; strip p2].
Proof.
  intros H. unfold parse_estimation_result in H.
  apply estimation_lines_from_line in H
    as (line & p0 & p1 & p2 & rest & Hl & Hs & Hg & ->);
    [|by intros g c; rewrite lookup_empty].
  split; [|by exists line, p0, p1, p2, rest].
  simpl. destruct (is_call (strip p1)), (is_call (strip p2)); simpl; lia.
Qed.

Lemma estimation_calls_of_one_line_witness :
  (List.length ["A*03:01"] ≤ 2)%nat
  ∧ ∃ line p0 p1 p2 rest, line ∈ file_lines (read_text estimation_repeated)
      ∧ split tab (strip line) = p0 :: p1 :: p2 :: rest ∧ strip p0 = "A"
      ∧ ["A*03:01"] = List.filter is_call [strip p1; strip p2].
Proof.
  apply (estimation_calls_of_one_line estimation_repeated "A" ["A*03:01"]).
  vm_compute. reflexivity.
Defined.

(** X9: a gene is a key of [parse_estimation_result] exactly when some
    line has, once trimmed, at least three columns and names it; the list
    may be empty, when both allele columns are sentinels. *)
Theorem estimation_genes raw gene :
  is_Some (parse_estimation_result raw !! gene)
  ↔ ∃ line p0 p1 p2 rest, line ∈ file_lines (read_text raw)
      ∧ split tab (strip line) = p0 :: p1 :: p2 :: rest ∧ strip p0 = gene.
Proof.
  split.
  - intros [calls H]. unfold parse_estimation_result in H.
    apply estimation_lines_from_line in H
      as (line & p0 & p1 & p2 & rest & Hl & Hs & Hg & _);
      [|by intros g c; rewrite lookup_empty].
    by exists line, p0, p1, p2, rest.
  - intros (line & p0 & p1 & p2 & rest & Hl & Hs & <-).
    apply list_elem_of_split in Hl as (l1 & l2 & Hl).
    unfold parse_estimation_result. rewrite Hl, fold_left_app. cbn [fold_left].
    apply estimation_lines_keep.
    by rewrite (estimation_line_cols _ _ _ _ _ _ Hs), lookup_insert_eq.
Qed.

Example estimation_all_sentinels :
  parse_estimation_result ("DRB3" +:+ tb +:+ "Not typed" +:+ tb +:+ "-")
  = {[ "DRB3" := [] ]}.
Proof. vm_compute. reflexivity. Qed.

End EstimationMore.

(** ** The Corpus of [collect_all_results] *)

Section Corpus.
Import Text Extract Stated Shape.

Lemma for_eachM_inv {A St} (body : St → A → M St) (I : St → Prop) xs :
  (∀ st x log st', x ∈ xs → I st → body st x = (log, Ok st') → I st') →
  ∀ st log st', I st → for_eachM body xs st = (log, Ok st') → I st'.
Proof.
  induction xs as [|x xs IH]; intros Hbody st log st' Hst; cbn [for_eachM].
  - by intros [= _ <-].
  - unfold mbind, M_bind.
    destruct (body st x) as [log1 [st1|e]] eqn:E; [|done].
    destruct (for_eachM body xs st1) as [log2 r2] eqn:E2.
    intros [= _ ->]. eapply IH; [| |exact E2].
    + intros st0 y l0 st0' Hy. apply Hbody. apply elem_of_cons. by right.
    + eapply Hbody; [|done|exact E]. apply elem_of_cons. by left.
Qed.

Lemma collect_step_inv all_data samples e log all_data' samples' :
  Table.collect_step (all_data, samples) e = (log, Ok (all_data', samples')) →
  (all_data' = all_data ∧ samples' = samples)
  ∨ ∃ res, res ≠ ∅ ∧ all_data' = <[entry_name e := res]> all_data
           ∧ samples' = samples ++ [entry_name e].
Proof.
  unfold Table.collect_step. destruct (is_dir e); simpl; [|by intros [= _ <- <-]; left].
  destruct (report_files e) as [|report rest]; [by intros [= _ <- <-]; left|].
  unfold lift, mbind, M_bind.
  destruct (parse_report_file report) as [res|ex]; [|done].
  destruct (bool_decide (res = ∅)) eqn:Eb; simpl; intros [= _ <- <-]; [by left|].
  apply bool_decide_eq_false in Eb. right. by exists res.
Qed.

Lemma all_genes_of_spec (all_data : gmap string (gmap string (list allele_info))) g :
  g ∈ Table.all_genes_of all_data
  ↔ ∃ s res, all_data !! s = Some res ∧ is_Some (res !! g).
Proof.
  unfold Table.all_genes_of.
  apply (map_fold_weak_ind
    (λ (acc : gset string) (m : gmap string (gmap string (list allele_info))),
       g ∈ acc ↔ ∃ s res, m !! s = Some res ∧ is_Some (res !! g))).
  - split; [by intros ?%elem_of_empty|]. intros (s & res & H & _).
    by rewrite lookup_empty in H.
  - intros s res m acc Hs IH. rewrite elem_of_union, IH, elem_of_dom. split.
    + intros [(s' & res' & Hm & Hg)|Hg].
      * exists s', res'. split; [|done]. rewrite lookup_insert_ne; [done|].
        intros ->. congruence.
      * exists s, res. by rewrite lookup_insert_eq.
    + intros (s' & res' & Hm & Hg). rewrite lookup_insert in Hm.
      case_decide as Hd.
      * injection Hm as <-. by right.
      * left. by exists s', res'.
Qed.

(** X10: the Corpus [collect_all_results] returns has its samples in
    lexicographic order, its samples are the keys of the data, no sample
    has an empty result, and its genes are, each once and in lexicographic
    order, the genes of the samples it holds. *)
Theorem corpus_shape fs output_dir log all_data samples genes :
  Table.collect_all_results fs output_dir
    = (log, Ok (Some (all_data, samples, genes))) →
  Sorted (λ a b, str_le a b = true) samples
  ∧ (∀ s, s ∈ samples ↔ s ∈ dom all_data)
  ∧ (∀ s res, all_data !! s = Some res → res ≠ ∅)
  ∧ Sorted (λ a b, str_le a b = true) genes
  ∧ NoDup genes
  ∧ (∀ g, g ∈ genes ↔ ∃ s res, all_data !! s = Some res ∧ is_Some (res !! g)).
Proof.
  unfold Table.collect_all_results.
  destruct (iterdir fs output_dir) as [entries|]; [|done].
  unfold mbind, M_bind.
  destruct (for_eachM _ _ _) as [log1 [[ad ss]|e]] eqn:E; [|done].
  simpl. intros [= _ <- <- <-].
  assert ((∀ s, s ∈ ss ↔ s ∈ dom ad) ∧ (∀ s res, ad !! s = Some res → res ≠ ∅))
    as [Hss Hne].
  { apply (λ Hb Hi, for_eachM_inv Table.collect_step
      (λ st : gmap string (gmap string (list allele_info)) * list string,
         (∀ s, s ∈ st.2 ↔ s ∈ dom st.1)
         ∧ (∀ s res, st.1 !! s = Some res → res ≠ ∅))
      _ Hb (∅, []) log1 (ad, ss) Hi E).
    - intros [ad0 ss0] x l0 [ad1 ss1] _ [H1 H2] Hstep. simpl in *.
      apply collect_step_inv in Hstep as [[-> ->]|(res & Hres & -> & ->)];
        [done|]. split.
      + intros s. rewrite elem_of_app, list_elem_of_singleton, dom_insert_L,
          elem_of_union, elem_of_singleton, H1. tauto.
      + intros s res'. rewrite lookup_insert. case_decide; [|apply H2].
        by intros [= <-].
    - simpl. split; [|by intros s res; rewrite lookup_empty].
      intros s. rewrite dom_empty_L. split; [by intros ?%elem_of_nil|].
      by intros ?%elem_of_empty. }
  split_and!.
  - apply (sorted_by_Sorted id str_le str_le_total).
  - intros s. unfold sorted_strs. by rewrite sorted_by_Permutation.
  - done.
  - apply (sorted_by_Sorted id str_le str_le_total).
  - unfold sorted_strs. rewrite sorted_by_Permutation. apply NoDup_elements.
  - intros g. unfold sorted_strs.
    by rewrite sorted_by_Permutation, elem_of_elements, all_genes_of_spec.
Qed.

Lemma corpus_shape_witness :
  Sorted (λ a b, str_le a b = true) ["S1"]
  ∧ (∀ s, s ∈ ["S1"] ↔ s ∈ dom unordered_corpus).
Proof.
  destruct (corpus_shape unordered_sample "hisat.output" [] unordered_corpus
              ["S1"] ["A"]) as (H1 & H2 & _).
  - vm_compute. reflexivity.
  - by split.
Defined.

End Corpus.

(** ** What the Sample x Gene matrix shows *)

Section Stable.
Context {A K : Type} (key : A → K) (le : K → K → bool) (p : A → bool).
Hypothesis p_le : ∀ x y, p x = true → p y = true → le (key x) (key y) = true.

Lemma insort_stable x l :
  List.filter p (insort key le x l) = List.filter p (x :: l).
Proof.
  induction l as [|y l IH]; [done|]. cbn [insort].
  destruct (le (key x) (key y)) eqn:E; [done|].
  cbn [List.filter] in *. rewrite IH.
  destruct (p x) eqn:Ex, (p y) eqn:Ey; try done.
  rewrite (p_le x y Ex Ey) in E. discriminate.
Qed.

Lemma sorted_by_stable l :
  List.filter p (sorted_by key le l) = List.filter p l.
Proof.
  induction l as [|x l IH]; [done|]. cbn [sorted_by].
  rewrite insort_stable. cbn [List.filter]. by rewrite IH.
Qed.

End Stable.

Section TableDocument.
Import Text Extract Stated Shape Table.

Local Abbreviation version := (λ ad0 ad : gmap string (gmap string (list allele_info)),
  ∀ s g, stored ad s g = stored ad0 s g
         ∨ stored ad s g = sorted_by rank N.leb <$> stored ad0 s g).

Lemma table_cell_version ad0 ad gene sample :
  version ad0 ad → table_cell ad gene sample = table_cell ad0 gene sample.
Proof.
  intros H. unfold table_cell. destruct (H sample gene) as [-> | ->]; [done|].
  destruct (stored ad0 sample gene); [|done]. simpl. by rewrite by_rank_idem.
Qed.

Lemma render_cell_cells gene ad cells sample :
  (render_cell gene (ad, cells) sample).2 = cells ++ [table_cell ad gene sample].
Proof.
  unfold render_cell, table_cell, stored.
  destruct (ad !! sample) as [res|]; simpl; [|done].
  by destruct (res !! gene).
Qed.

Lemma render_cell_version ad0 gene ad cells sample :
  version ad0 ad → version ad0 (render_cell gene (ad, cells) sample).1.
Proof.
  intros H s g. rewrite render_cell_stored.
  destruct (decide (s = sample ∧ g = gene)); [|apply H].
  destruct (H s g) as [-> | ->]; [by right|]. right.
  destruct (stored ad0 s g); [|done]. simpl. by rewrite by_rank_idem.
Qed.

Lemma render_cells_doc ad0 gene samples : ∀ ad cells,
  version ad0 ad →
  version ad0 (fold_left (render_cell gene) samples (ad, cells)).1
  ∧ (fold_left (render_cell gene) samples (ad, cells)).2
    = cells ++ map (table_cell ad0 gene) samples.
Proof.
  induction samples as [|x samples IH]; intros ad cells Hv; cbn [fold_left].
  - split; [done|]. by rewrite app_nil_r.
  - pose proof (render_cell_version ad0 gene ad cells x Hv) as Hv1.
    pose proof (render_cell_cells gene ad cells x) as Hc.
    destruct (render_cell gene (ad, cells) x) as [ad1 cells1].
    cbn [fst snd] in Hv1, Hc. subst cells1.
    destruct (IH ad1 (cells ++ [table_cell ad gene x]) Hv1) as [IH1 IH2].
    split; [done|]. rewrite IH2, <- app_assoc. simpl.
    by rewrite (table_cell_version ad0 ad).
Qed.

Lemma render_rows_doc ad0 samples genes : ∀ ad rows,
  version ad0 ad →
  version ad0 (fold_left (render_row samples) genes (ad, rows)).1
  ∧ (fold_left (render_row samples) genes (ad, rows)).2
    = rows ++ map (λ gene, (gene, map (table_cell ad0 gene) samples)) genes.
Proof.
  induction genes as [|x genes IH]; intros ad rows Hv; cbn [fold_left].
  - split; [done|]. by rewrite app_nil_r.
  - assert (∃ ad1, render_row samples (ad, rows) x
                     = (ad1, rows ++ [(x, map (table_cell ad0 x) samples)])
                   ∧ version ad0 ad1) as (ad1 & -> & Hv1).
    { unfold render_row.
      destruct (render_cells_doc ad0 x samples ad [] Hv) as [Hv1 Hc].
      destruct (fold_left (render_cell x) samples (ad, [])) as [ad1 cells1].
      cbn [fst snd] in Hv1, Hc. subst cells1. by exists ad1. }
    destruct (IH ad1 (rows ++ [(x, map (table_cell ad0 x) samples)]) Hv1)
      as [IH1 IH2].
    split; [done|]. by rewrite IH2, <- app_assoc.
Qed.

Lemma generate_html_table_run all_data samples genes output_file :
  generate_html_table all_data samples genes output_file
  = ([ FileWritten output_file (table_document all_data samples genes);
       Stdout ("HTML table generated: " +:+ output_file) ],
     Ok (fold_left (render_row samples) genes (all_data, [])).1).
Proof.
  unfold generate_html_table.
  destruct (render_rows_doc all_data samples genes all_data []) as [_ Hrows];
    [by left|].
  destruct (fold_left (render_row samples) genes (all_data, [])) as [ad1 rows1].
  cbn [snd] in Hrows. subst rows1. reflexivity.
Qed.

(** X11: [generate_html_table] writes one document: its columns are Gene
    and the samples as given, its rows the genes as given, and the cell of a
    gene and sample lists the calls stored for them at the start of the
    call, in rank order, or is the cell without calls when the sample or
    the gene is missing; the sorting done along the way changes no later
    cell. *)
Theorem table_document_written all_data samples genes output_file :
  ∃ all_data',
    generate_html_table all_data samples genes output_file
    = ([ FileWritten output_file (table_document all_data samples genes);
         Stdout ("HTML table generated: " +:+ output_file) ],
       Ok all_data').
Proof. eexists. apply generate_html_table_run. Qed.

Lemma store_ext (a b : gmap string (gmap string (list allele_info))) :
  dom a = dom b → (∀ s g, stored a s g = stored b s g) → a = b.
Proof.
  intros Hdom Hst. apply map_eq. intros s.
  destruct (a !! s) as [ra|] eqn:Ea, (b !! s) as [rb|] eqn:Eb; [| | |done].
  - f_equal. apply map_eq. intros g. specialize (Hst s g).
    unfold stored in Hst. by rewrite Ea, Eb in Hst.
  - apply elem_of_dom_2 in Ea. rewrite Hdom in Ea.
    apply elem_of_dom in Ea as [? ?]. congruence.
  - apply elem_of_dom_2 in Eb. rewrite <- Hdom in Eb.
    apply elem_of_dom in Eb as [? ?]. congruence.
Qed.

(** X12: rendering is idempotent: a second call on the store the first
    call returns writes the same document and returns that store
    unchanged. *)
Theorem table_rendering_idempotent all_data samples genes output_file log all_data' :
  generate_html_table all_data samples genes output_file = (log, Ok all_data') →
  generate_html_table all_data' samples genes output_file = (log, Ok all_data').
Proof.
  rewrite !generate_html_table_run. intros [= <- <-].
  set (ad1 := (fold_left (render_row samples) genes (all_data, [])).1).
  assert (∀ s g, stored ad1 s g =
            if decide (s ∈ samples ∧ g ∈ genes)
            then sorted_by rank N.leb <$> stored all_data s g
            else stored all_data s g) as Hst by apply render_rows_stored.
  assert (version all_data ad1) as Hv.
  { intros s g. rewrite Hst. destruct (decide _); [by right | by left]. }
  f_equal.
  - f_equal. f_equal. unfold table_document. f_equal.
    apply map_ext. intros g. f_equal. apply map_ext. intros s.
    by apply table_cell_version.
  - f_equal. apply store_ext.
    + apply render_rows_dom.
    + intros s g. rewrite render_rows_stored, Hst.
      destruct (decide _); [|done].
      destruct (stored all_data s g); [|done]. simpl. by rewrite by_rank_idem.
Qed.

Lemma table_rendering_idempotent_witness :
  ∃ log all_data',
    generate_html_table unordered_corpus ["S1"] ["A"] "hisat_results_table.html"
      = (log, Ok all_data')
    ∧ generate_html_table all_data' ["S1"] ["A"] "hisat_results_table.html"
      = (log, Ok all_data').
Proof.
  eexists _, _. split; [apply generate_html_table_run|].
  apply (table_rendering_idempotent unordered_corpus).
  apply generate_html_table_run.
Defined.

(** X13: after rendering, the list stored for a rendered sample and gene is
    in rank order, and its calls of any one rank are those of the list
    before, in the order they had: equal ranks are neither merged nor
    swapped. *)
Theorem table_rendering_stable all_data samples genes output_file log all_data'
    s g l :
  generate_html_table all_data samples genes output_file = (log, Ok all_data') →
  s ∈ samples → g ∈ genes → stored all_data s g = Some l →
  ∃ l', stored all_data' s g = Some l'
    ∧ Sorted (λ a b, (rank a <=? rank b)%N = true) l'
    ∧ ∀ r, List.filter (λ c, (rank c =? r)%N) l'
           = List.filter (λ c, (rank c =? r)%N) l.
Proof.
  rewrite generate_html_table_run. intros [= _ <-] Hs Hg Hl.
  exists (sorted_by rank N.leb l). split_and!.
  - rewrite render_rows_stored, decide_True by done. by rewrite Hl.
  - apply (sorted_by_Sorted rank N.leb N_leb_total).
  - intros r. apply sorted_by_stable. intros x y Hx Hy.
    apply N.eqb_eq in Hx, Hy. apply N.leb_le. lia.
Qed.

Lemma table_rendering_stable_witness :
  ∃ l', stored (fold_left (render_row ["S1"]) ["A"] (unordered_corpus, [])).1 "S1" "A"
        = Some l'
    ∧ Sorted (λ a b, (rank a <=? rank b)%N = true) l'
    ∧ ∀ r, List.filter (λ c, (rank c =? r)%N) l'
           = List.filter (λ c, (rank c =? r)%N)
               [ {| rank := 2; allele := "02:01"; abundance := 89 # 2 |};
                 {| rank := 1; allele := "01:01"; abundance := 111 # 2 |} ].
Proof.
  eapply (table_rendering_stable unordered_corpus ["S1"] ["A"]
            "hisat_results_table.html" _ _ "S1" "A").
  - apply generate_html_table_run.
  - apply elem_of_cons. by left.
  - apply elem_of_cons. by left.
  - vm_compute. reflexivity.
Defined.

End TableDocument.

(** ** What the runs write *)

Section Written.
Import Text Extract Stated Shape.

Lemma documents_app l1 l2 : documents (l1 ++ l2) = documents l1 ++ documents l2.
Proof. unfold documents. apply flat_map_app. Qed.

Lemma process_sample_run fs sample_name data :
  Merge.collect_sample_data fs sample_name "hisat.output"
    "/mnt/data/igor-shared/HLA/estimation" "optitype_output"
    "/igor-shared/HLA-LA/working" = Ok data →
  Merge.process_sample fs "hisat.output" "/mnt/data/igor-shared/HLA/estimation"
    "optitype_output" "/igor-shared/HLA-LA/working" "comparison_results"
    tt sample_name
  = ([ Stdout (nl +:+ "Processing " +:+ sample_name +:+ "...");
       FileWritten (comparison_path sample_name) (Merge.sample_document data);
       Stdout ("Generated: " +:+ comparison_path sample_name) ], Ok tt).
Proof.
  intros H. unfold Merge.process_sample, Merge.generate_sample_html.
  rewrite H. reflexivity.
Qed.

Lemma merge_loop fs names :
  (∀ n, n ∈ names → ∃ data,
     Merge.collect_sample_data fs n "hisat.output"
       "/mnt/data/igor-shared/HLA/estimation" "optitype_output"
       "/igor-shared/HLA-LA/working" = Ok data) →
  ∃ log,
    for_eachM (Merge.process_sample fs "hisat.output"
                 "/mnt/data/igor-shared/HLA/estimation" "optitype_output"
                 "/igor-shared/HLA-LA/working" "comparison_results") names tt
    = (log, Ok tt)
    ∧ Forall2 (λ n pd, pd.1 = comparison_path n
                 ∧ ∃ data, Merge.collect_sample_data fs n "hisat.output"
                             "/mnt/data/igor-shared/HLA/estimation"
                             "optitype_output" "/igor-shared/HLA-LA/working"
                           = Ok data
                     ∧ pd.2 = Merge.sample_document data)
              names (documents log).
Proof.
  induction names as [|n names IH]; intros Hdata; cbn [for_eachM].
  - eexists. split; [reflexivity|]. constructor.
  - destruct (Hdata n) as (data & Hd); [apply elem_of_cons; by left|].
    destruct IH as (log & Hlog & Hdocs).
    { intros n' Hn'. apply Hdata. apply elem_of_cons. by right. }
    rewrite (process_sample_run fs n data Hd). unfold mbind, M_bind.
    rewrite Hlog. eexists. split; [reflexivity|].
    rewrite documents_app. simpl. constructor; [|done].
    split; [done|]. by exists data.
Qed.

(** X14: when the root exists and [collect_sample_data] returns for each
    directory of the root, [main] of merge_results.py returns after writing
    one document per directory, in lexicographic order of their names,
    plain files passed over: the document of a sample is the matrix of the
    record [collect_sample_data] builds for it, at
    comparison_results/<name>_comparison.html. *)
Theorem merge_main_documents fs entries :
  iterdir fs "hisat.output" = Some entries →
  (∀ n, n ∈ sample_names entries →
     ∃ data, Merge.collect_sample_data fs n "hisat.output"
               "/mnt/data/igor-shared/HLA/estimation" "optitype_output"
               "/igor-shared/HLA-LA/working" = Ok data) →
  ∃ log, Merge.main fs = (log, Ok tt)
    ∧ Forall2 (λ n pd, pd.1 = comparison_path n
                 ∧ ∃ data, Merge.collect_sample_data fs n "hisat.output"
                             "/mnt/data/igor-shared/HLA/estimation"
                             "optitype_output" "/igor-shared/HLA-LA/working"
                           = Ok data
                     ∧ pd.2 = Merge.sample_document data)
              (sample_names entries) (documents log).
Proof.
  intros Hroot Hdata. unfold Merge.main. rewrite Hroot.
  destruct (merge_loop fs (sample_names entries) Hdata) as (log & Hlog & Hdocs).
  unfold sample_names in Hlog. unfold mbind, M_bind, emit, print. simpl.
  rewrite Hlog. eexists. split; [reflexivity|].
  unfold documents in *. cbn [flat_map app]. rewrite flat_map_app.
  cbn [flat_map app]. by rewrite app_nil_r.
Qed.

Lemma merge_main_documents_witness :
  ∃ log, Merge.main two_samples = (log, Ok tt)
    ∧ map fst (documents log)
      = [comparison_path "S1"; comparison_path "S2"].
Proof.
  destruct (merge_main_documents two_samples _ eq_refl) as (log & Hlog & Hdocs).
  - intros n Hn. change (sample_names _) with ["S1"; "S2"] in Hn.
    apply elem_of_cons in Hn as [->|Hn].
    + eexists. vm_compute. reflexivity.
    + apply list_elem_of_singleton in Hn as ->. eexists. vm_compute. reflexivity.
  - exists log. split; [exact Hlog|].
    change (sample_names _) with ["S1"; "S2"] in Hdocs.
    apply Forall2_cons_inv_l in Hdocs as (d1 & k1 & [H1 _] & Hdocs & ->).
    apply Forall2_cons_inv_l in Hdocs as (d2 & k2 & [H2 _] & Hdocs & ->).
    apply Forall2_nil_inv_l in Hdocs as ->. simpl. by rewrite H1, H2.
Defined.

(** X15: once [collect_all_results] has returned a Corpus, [main] of
    generate_html_table.py returns; it writes nothing when the Corpus is
    empty, and otherwise the one document hisat_results_table.html, the
    matrix of that Corpus. *)
Theorem table_main_document fs log0 all_data samples genes :
  Table.collect_all_results fs "hisat.output"
    = (log0, Ok (Some (all_data, samples, genes))) →
  (Table.main fs).2 = Ok tt
  ∧ documents log0 = []
  ∧ documents (Table.main fs).1
    = if decide (all_data = ∅) then []
      else [("hisat_results_table.html", table_document all_data samples genes)].
Proof.
  intros H.
  assert (documents log0 = []) as Hlog0.
  { unfold Table.collect_all_results in H.
    destruct (iterdir fs "hisat.output") as [entries|]; [|done].
    unfold mbind, M_bind in H.
    destruct (for_eachM _ _ _) as [log1 [[ad ss]|e]] eqn:E; [|done].
    simpl in H. injection H as <- _ _ _. rewrite app_nil_r.
    revert E. generalize (∅ : gmap string (gmap string (list allele_info)),
                          [] : list string).
    revert log1.
    induction (sorted_by entry_name str_le entries) as [|x xs IH];
      intros log1 acc; cbn [for_eachM].
    - by intros [= <- _].
    - unfold mbind, M_bind.
      destruct (Table.collect_step acc x) as [l1 [acc1|e]] eqn:E1; [|done].
      destruct (for_eachM Table.collect_step xs acc1) as [l2 r2] eqn:E2.
      intros [= <- ->]. rewrite documents_app, (IH _ _ E2), app_nil_r.
      clear -E1. unfold Table.collect_step in E1. destruct acc as [ad0 ss0].
      destruct (is_dir x); simpl in E1; [|by injection E1 as <- _].
      destruct (report_files x); [by injection E1 as <- _|].
      unfold lift, mbind, M_bind in E1.
      destruct (parse_report_file _); [|done].
      destruct (bool_decide _); simpl in E1; by injection E1 as <- _. }
  unfold Table.main. rewrite H. unfold mbind, M_bind, print, emit. simpl.
  destruct (decide (all_data = ∅)) as [->|Hne].
  - rewrite bool_decide_eq_true_2 by done. simpl.
    split; [done|]. split; [done|]. by rewrite documents_app, Hlog0.
  - rewrite bool_decide_eq_false_2 by done. simpl.
    rewrite generate_html_table_run. simpl.
    split; [done|]. split; [done|]. by rewrite documents_app, Hlog0.
Qed.

Lemma table_main_document_witness :
  documents (Table.main unordered_sample).1
  = [("hisat_results_table.html", table_document unordered_corpus ["S1"] ["A"])].
Proof.
  destruct (table_main_document unordered_sample [] unordered_corpus ["S1"] ["A"])
    as (_ & _ & H).
  - vm_compute. reflexivity.
  - rewrite H. reflexivity.
Defined.

End Written.

(** ** Runs that raise *)

Section Failing.
Import Text Extract Stated Shape.

Lemma parse_report_file_exn raw e :
  parse_report_file raw = Raise e → e = ValueError.
Proof.
  apply (loop_raises (λ _, true) m_allele report_step ltac:(done)
           (matches (read_text raw)) ∅).
Qed.

Lemma collect_step_result acc x l r :
  Table.collect_step acc x = (l, r) →
  documents l = [] ∧ ∀ ex, r = Raise ex → ex = ValueError.
Proof.
  unfold Table.collect_step. destruct acc as [ad ss].
  destruct (is_dir x); simpl; [|by intros [= <- <-]].
  destruct (report_files x) as [|report rest]; [by intros [= <- <-]|].
  unfold lift, mbind, M_bind.
  destruct (parse_report_file report) as [res|e] eqn:E.
  - destruct (bool_decide _); simpl; by intros [= <- <-].
  - intros [= <- <-]. split; [done|]. intros ex [= <-].
    by apply parse_report_file_exn in E.
Qed.

Lemma collect_step_bad acc x report rest :
  is_dir x = true → report_files x = report :: rest →
  parse_report_file report = Raise ValueError →
  Table.collect_step acc x = ([], Raise ValueError).
Proof.
  intros Hd Hr Hp. unfold Table.collect_step. destruct acc as [ad ss].
  rewrite Hd, Hr. simpl. by rewrite Hp.
Qed.

Lemma collect_loop_raises es : ∀ acc,
  (∃ x report rest, x ∈ es ∧ is_dir x = true ∧ report_files x = report :: rest
                    ∧ parse_report_file report = Raise ValueError) →
  ∃ log, for_eachM Table.collect_step es acc = (log, Raise ValueError)
         ∧ documents log = [].
Proof.
  induction es as [|x es IH]; intros acc (b & report & rest & Hb & Hd & Hr & Hp).
  - by apply elem_of_nil in Hb.
  - cbn [for_eachM]. unfold mbind, M_bind.
    destruct (Table.collect_step acc x) as [l [acc1|ex]] eqn:E.
    + apply elem_of_cons in Hb as [->|Hb].
      { rewrite (collect_step_bad acc x report rest Hd Hr Hp) in E. discriminate. }
      destruct (IH acc1) as (log & -> & Hlog); [by exists b, report, rest|].
      eexists. split; [reflexivity|].
      rewrite documents_app, Hlog, app_nil_r.
      by apply (collect_step_result acc x l (Ok acc1)).
    + destruct (collect_step_result acc x l (Raise ex) E) as [Hl Hex].
      rewrite (Hex ex eq_refl). by exists l.
Qed.

(** X16: when the first report of some directory of the root has a match
    whose abundance is no number, [main] of generate_html_table.py ends
    with ValueError: the exit status is 1 and no document is written,
    whatever the other samples hold. *)
Theorem table_main_raises fs entries e report rest :
  iterdir fs "hisat.output" = Some entries →
  e ∈ entries → is_dir e = true → report_files e = report :: rest →
  parse_report_file report = Raise ValueError →
  (Table.main fs).2 = Raise ValueError
  ∧ exit_status (Table.main fs) = 1
  ∧ documents (Table.main fs).1 = [].
Proof.
  intros Hroot He Hd Hr Hp.
  destruct (collect_loop_raises (sorted_by entry_name str_le entries) (∅, []))
    as (log & Hlog & Hdocs).
  { exists e, report, rest. split_and!; try done.
    by rewrite sorted_by_Permutation. }
  unfold exit_status, Table.main, Table.collect_all_results.
  rewrite Hroot. unfold mbind, M_bind, print, emit. rewrite Hlog. simpl.
  split; [done|]. split; [done|]. exact Hdocs.
Qed.

Lemma table_main_raises_witness :
  (Table.main malformed_sample).2 = Raise ValueError
  ∧ exit_status (Table.main malformed_sample) = 1
  ∧ documents (Table.main malformed_sample).1 = [].
Proof.
  eapply (table_main_raises malformed_sample _
           {| entry_name := "S2"; is_dir := true;
              report_files := ["1 ranked A*01:01 (abundance: 1.2.3%)"] |}
           "1 ranked A*01:01 (abundance: 1.2.3%)" []).
  - reflexivity.
  - apply elem_of_cons. right. apply elem_of_cons. by left.
  - reflexivity.
  - reflexivity.
  - vm_compute. reflexivity.
Defined.

Lemma process_sample_raises fs sample_name ex :
  Merge.collect_sample_data fs sample_name "hisat.output"
    "/mnt/data/igor-shared/HLA/estimation" "optitype_output"
    "/igor-shared/HLA-LA/working" = Raise ex →
  Merge.process_sample fs "hisat.output" "/mnt/data/igor-shared/HLA/estimation"
    "optitype_output" "/igor-shared/HLA-LA/working" "comparison_results"
    tt sample_name
  = ([ Stdout (nl +:+ "Processing " +:+ sample_name +:+ "...") ], Raise ex).
Proof. intros H. unfold Merge.process_sample. by rewrite H. Qed.

Lemma merge_loop_raises fs before n after ex :
  (∀ b, b ∈ before → ∃ data,
     Merge.collect_sample_data fs b "hisat.output"
       "/mnt/data/igor-shared/HLA/estimation" "optitype_output"
       "/igor-shared/HLA-LA/working" = Ok data) →
  Merge.collect_sample_data fs n "hisat.output"
    "/mnt/data/igor-shared/HLA/estimation" "optitype_output"
    "/igor-shared/HLA-LA/working" = Raise ex →
  ∃ log,
    for_eachM (Merge.process_sample fs "hisat.output"
                 "/mnt/data/igor-shared/HLA/estimation" "optitype_output"
                 "/igor-shared/HLA-LA/working" "comparison_results")
              (before ++ n :: after) tt
    = (log, Raise ex)
    ∧ map fst (documents log) = map comparison_path before.
Proof.
  intros Hbefore Hn. induction before as [|b before IH]; cbn [app for_eachM].
  - rewrite (process_sample_raises fs n ex Hn). by eexists.
  - destruct (Hbefore b) as (data & Hd); [apply elem_of_cons; by left|].
    destruct IH as (log & Hlog & Hdocs).
    { intros b' Hb'. apply Hbefore. apply elem_of_cons. by right. }
    rewrite (process_sample_run fs b data Hd). unfold mbind, M_bind.
    rewrite Hlog. eexists. split; [reflexivity|].
    rewrite documents_app. simpl. by rewrite Hdocs.
Qed.

(** X17: when building the record of a sample raises, [main] of
    merge_results.py ends with that exception and status 1; the documents
    of the samples before it, in name order, are already written and stay,
    and none is written for it or for the samples after it. *)
Theorem merge_main_raises fs entries before n after ex :
  iterdir fs "hisat.output" = Some entries →
  sample_names entries = before ++ n :: after →
  (∀ b, b ∈ before → ∃ data,
     Merge.collect_sample_data fs b "hisat.output"
       "/mnt/data/igor-shared/HLA/estimation" "optitype_output"
       "/igor-shared/HLA-LA/working" = Ok data) →
  Merge.collect_sample_data fs n "hisat.output"
    "/mnt/data/igor-shared/HLA/estimation" "optitype_output"
    "/igor-shared/HLA-LA/working" = Raise ex →
  (Merge.main fs).2 = Raise ex
  ∧ exit_status (Merge.main fs) = 1
  ∧ map fst (documents (Merge.main fs).1) = map comparison_path before.
Proof.
  intros Hroot Hnames Hbefore Hn.
  destruct (merge_loop_raises fs before n after ex Hbefore Hn)
    as (log & Hlog & Hdocs).
  unfold exit_status, Merge.main. rewrite Hroot.
  unfold sample_names in Hnames. rewrite Hnames.
  unfold mbind, M_bind, print, emit. simpl. rewrite Hlog. simpl.
  split; [done|]. split; [done|]. exact Hdocs.
Qed.

Lemma merge_main_raises_witness :
  (Merge.main malformed_sample).2 = Raise ValueError
  ∧ exit_status (Merge.main malformed_sample) = 1
  ∧ map fst (documents (Merge.main malformed_sample).1) = [comparison_path "S1"].
Proof.
  eapply (merge_main_raises malformed_sample _ ["S1"] "S2" [] ValueError eq_refl).
  - reflexivity.
  - intros b Hb. apply list_elem_of_singleton in Hb as ->.
    eexists. vm_compute. reflexivity.
  - vm_compute. reflexivity.
Defined.

End Failing.

(** ** Rows of the Gene x Method matrix *)

Section Keys.
Import Text Num Regex Extract Stated Shape.

Context (keep : N → bool) (name : ranked_match → string)
        (step : gmap string (list allele_info) → ranked_match
                → result (gmap string (list allele_info))).
Hypothesis step_eq : ∀ results m,
  step results m =
    let results := ensure_key (m_gene m) results in
    r ← int (m_rank m);
    if keep r then
      ab ← float (m_abundance m);
      Ok (append_at (m_gene m)
            {| rank := r; allele := name m; abundance := ab |}
            results)
    else Ok results.

Lemma step_keeps_keys results m results' g :
  step results m = Ok results' →
  (g = m_gene m ∨ is_Some (results !! g)) → is_Some (results' !! g).
Proof.
  rewrite step_eq. cbv zeta. intros Hstep Hg.
  assert (is_Some (ensure_key (m_gene m) results !! g)) as He.
  { rewrite ensure_key_lookup. destruct Hg as [->|Hg].
    - by rewrite decide_True.
    - case_decide; [by eexists | done]. }
  destruct (int (m_rank m)) as [r|e]; [|done]. simpl in Hstep.
  destruct (keep r); [|by injection Hstep as <-].
  destruct (float (m_abundance m)); [|done]. simpl in Hstep.
  injection Hstep as <-. rewrite append_at_lookup.
  case_decide; [|done]. destruct He as [l ->]. by eexists.
Qed.

Lemma loop_keeps_keys ms : ∀ init res g,
  for_each step ms init = Ok res →
  ((∃ m, m ∈ ms ∧ m_gene m = g) ∨ is_Some (init !! g)) → is_Some (res !! g).
Proof.
  induction ms as [|m ms IH]; intros init res g; cbn [for_each].
  - intros [= <-] [(m & Hm & _)|?]; [by apply elem_of_nil in Hm | done].
  - destruct (step init m) as [init'|e] eqn:E; [|done]. simpl.
    intros Hres Hg. apply (IH init' res g Hres).
    destruct Hg as [(m' & [->|Hm']%elem_of_cons & Hg)|Hg].
    + right. apply (step_keeps_keys init m init' g E). by left.
    + left. by exists m'.
    + right. apply (step_keeps_keys init m init' g E). by right.
Qed.

End Keys.

Section Rows.
Import Text Num Regex Extract Stated Shape Merge.

(** X18: the matrix of a sample has no row exactly when its four method
    results are all empty. *)
Theorem sample_document_empty data :
  rows (sample_document data) = []
  ↔ hisat data = ∅ ∧ estimation data = ∅ ∧ optitype data = ∅ ∧ hlala data = ∅.
Proof.
  assert (rows (sample_document data) = [] ↔ all_genes data = []) as ->.
  { simpl. split; [by intros ?%map_eq_nil | by intros ->]. }
  unfold all_genes, sorted_strs.
  set (X := ∅ ∪ dom (hisat data) ∪ dom (estimation data)
              ∪ dom (optitype data) ∪ dom (hlala data)).
  assert (sorted_by id str_le (elements X) = [] ↔ X = ∅) as ->.
  { split.
    - intros E. assert (elements X = []) as E'.
      { apply Permutation_nil. rewrite <- E. apply sorted_by_Permutation. }
      apply leibniz_equiv. by apply elements_empty_inv.
    - intros ->. by rewrite elements_empty. }
  subst X. rewrite !empty_union_L, !dom_empty_iff_L. tauto.
Qed.

(** X19: a gene all of whose matches in the report have rank 3 or more
    still gets a row in the sample's matrix: its HISAT-genotype cell is the
    no-data marker. *)
Theorem low_rank_gene_row raw data g :
  parse_hisat_report raw = Ok (hisat data) →
  (∃ m, m ∈ matches (read_text raw) ∧ m_gene m = g) →
  (∀ m, m ∈ matches (read_text raw) → m_gene m = g → top2 m = false) →
  hisat data !! g = Some []
  ∧ ∃ c1 c2 c3, (g, [c1; c2; c3; NoData]) ∈ rows (sample_document data).
Proof.
  intros Hres Hex Hlow.
  assert (hisat data !! g = Some []) as Hg.
  { destruct (loop_keeps_keys (λ r, (r <=? 2)%N)
                (λ m, "HLA-" +:+ m_gene m +:+ "*" +:+ m_allele m) hisat_step
                hisat_step_eq (matches (read_text raw)) ∅ (hisat data) g Hres)
      as [calls Hcalls]; [by left|].
    destruct (step_keys (λ r, (r <=? 2)%N)
                (λ m, "HLA-" +:+ m_gene m +:+ "*" +:+ m_allele m)
                hisat_step (matches (read_text raw)) hisat_step_eq (hisat data)
                Hres g calls Hcalls) as [_ Hc].
    destruct calls as [|c calls]; [done|].
    destruct (Hc c) as (m & Hm & Hgm & Hk & Hr & _); [apply elem_of_cons; by left|].
    pose proof (Hlow m Hm Hgm) as Hl. unfold top2, ranked in Hl.
    rewrite Hr in Hl. congruence. }
  split; [done|].
  exists (allele_cell (optitype data) g), (allele_cell (hlala data) g),
         (allele_cell (estimation data) g).
  simpl. apply list_elem_of_fmap. exists g. split.
  - unfold sample_row, hisat_cell. by rewrite Hg.
  - unfold all_genes, sorted_strs. rewrite sorted_by_Permutation, elem_of_elements.
    rewrite !elem_of_union. left; left; left; right.
    apply elem_of_dom. by eexists.
Qed.

Lemma low_rank_gene_row_witness :
  ∃ c1 c2 c3,
    ("A", [c1; c2; c3; NoData])
    ∈ rows (sample_document
              {| sample := "S1"; hisat := {[ "A" := [] ]}; estimation := ∅;
                 optitype := ∅; hlala := ∅ |}).
Proof.
  refine (proj2 (low_rank_gene_row rank3_report
            {| sample := "S1"; hisat := {[ "A" := [] ]}; estimation := ∅;
               optitype := ∅; hlala := ∅ |} "A" rank3_hisat_report _ _)).
  - rewrite rank3_matches. eexists. split; [apply elem_of_cons; by left | done].
  - rewrite rank3_matches. intros m Hm%list_elem_of_singleton _. by subst m.
Defined.

End Rows.

(** ** When building a record fails *)

Section RecordFails.
Import Text Extract Stated Shape.


End RecordFails.
